(** * Expert Evaluator: a shallow embedding of the assessment logic

    The development follows the TypeScript sources of the repository:

    - [Js]           the few JavaScript library functions the code relies on
                     ([Math.round] on binary64 numbers, [String.endsWith],
                     [String.includes], [String.substring]);
    - [Scoring]      the score computation of the two [evaluate-assessment]
                     handlers;
    - [Store]        the zustand assessment store ([assessmentStore.ts]);
    - [Upload]       [handleFileUpload] of [FileUpload.tsx];
    - [Proctor]      the [FaceVerification] component: its state, the closure
                     the polling interval captures, [verifyFace] and
                     [handleViolation];
    - [QuestionScreen] the event handlers and the countdown effect of
                     [Questions.tsx];
    - [Serverless]   the parse-and-fall-back blocks of the three serverless
                     handlers.

    JavaScript numbers that are computed with (division, rounding, comparison
    with a threshold) are binary64 floats, modelled by Rocq's primitive floats;
    counters, indices and millisecond clocks, which the code only increments,
    compares and subtracts, are integers. *)

From Stdlib Require Import ZArith Floats Uint63 Lia.
From stdpp Require Import base list strings pretty.

Set Default Proof Using "Type".

(* ===================================================================== *)
(** ** JavaScript library functions                                       *)
(* ===================================================================== *)

Module Js.

Local Open Scope float_scope.

(** 2^52: from here on every binary64 number is an integer. *)
Definition two52 : float := 0x1p+52.

(** Integer part of a non-negative number below 2^52.  Adding and removing
    2^52 rounds to the nearest integer (ties to even); one is taken off when
    that went up. *)
Definition trunc_abs (a : float) : float :=
  let r := (a + two52) - two52 in
  if a <? r then r - 1 else r.

(** [Math.floor]. NaN, the zeros, the infinities and the numbers of magnitude
    at least 2^52 are returned as they are. *)
Definition Math_floor (x : float) : float :=
  if is_nan x then x
  else if x =? 0 then x
  else if two52 <=? abs x then x
  else
    let a := abs x in
    let t := trunc_abs a in
    if 0 <=? x then t
    else if t =? a then - t else - (t + 1).

(** [Math.round]: the integer closest to [x], the larger one on a tie; NaN
    and the zeros are returned as they are; a negative argument that rounds to
    zero gives [-0]. *)
Definition Math_round (x : float) : float :=
  if x =? 0 then x
  else
    let f := Math_floor x in
    let r := if 0x1p-1 <=? x - f then f + 1 else f in
    if (x <? 0) && (r =? 0) then - 0 else r.

(** A non-negative integer as a JavaScript number (exact below 2^53). *)
Definition number_of_nat (n : nat) : float :=
  of_uint63 (Uint63.of_Z (Z.of_nat n)).

(** JavaScript strings are compared, searched and cut by code unit; a Rocq
    string stands for the sequence of code units. *)

(** [s.startsWith(p)]. *)
Fixpoint startsWith (s p : string) : bool :=
  match p, s with
  | EmptyString, _ => true
  | String _ _, EmptyString => false
  | String c p', String d s' => if decide (c = d) then startsWith s' p' else false
  end.

(** [s.includes(sub)]: [sub] starts at some position of [s]. *)
Fixpoint includes (s sub : string) : bool :=
  startsWith s sub ||
  match s with
  | EmptyString => false
  | String _ s' => includes s' sub
  end.

(** [s.endsWith(suffix)]: the last [suffix.length] code units of [s] are
    [suffix]. *)
Definition endsWith (s suffix : string) : bool :=
  let n := String.length s in
  let k := String.length suffix in
  if decide (k ≤ n)%nat
  then bool_decide (String.substring (n - k) k s = suffix)
  else false.

(** [s.substring(0, n)] for a non-negative integer [n]: the first [n] code
    units, the whole string when it is shorter. *)
Fixpoint substring0 (n : nat) (s : string) : string :=
  match n, s with
  | O, _ => EmptyString
  | S _, EmptyString => EmptyString
  | S n', String c s' => String c (substring0 n' s')
  end.

End Js.

(* ===================================================================== *)
(** ** Score computation of the evaluation handlers                       *)
(* ===================================================================== *)

Module Scoring.

Import Js.
Local Open Scope float_scope.

(** An answered question as the handlers read it: the submitted answer is
    absent ([undefined]) until the user answers. *)
Record Answer := mkAnswer {
  userAnswer : option string;
  correctAnswer : string;
}.

(** [answer.userAnswer === answer.correctAnswer]. *)
Definition is_correct (a : Answer) : bool :=
  bool_decide (userAnswer a = Some (correctAnswer a)).

(** First handler: [let correctAnswers = 0; answers.forEach(...)]. *)
Definition correctAnswers (answers : list Answer) : nat :=
  foldl (fun n a => if is_correct a then S n else n) O answers.

(** [Math.round((correctAnswers / answers.length) * 100)]. *)
Definition percentage (correct total : nat) : float :=
  Math_round (number_of_nat correct / number_of_nat total * 100).

Definition totalScore (answers : list Answer) : float :=
  percentage (correctAnswers answers) (length answers).

(** Second handler:
    [questions.filter(q => q.user_answer === q.correct_answer).length]. *)
Definition correctCount (questions : list Answer) : nat :=
  length (filter (fun q => userAnswer q = Some (correctAnswer q)) questions).

Definition score (questions : list Answer) : float :=
  percentage (correctCount questions) (length questions).

(** The percentage the specification asks for, on integers: 100 * c / n
    rounded to the nearest integer, a half going up. *)
Definition round_half_up_percent (correct total : nat) : nat :=
  ((200 * correct + total) / (2 * total))%nat.

End Scoring.

(* ===================================================================== *)
(** ** The assessment store ([assessmentStore.ts])                        *)
(* ===================================================================== *)

Module Store.

Local Open Scope Z_scope.

Record UploadedFile := mkUploadedFile {
  name : string;
  path : string;
  size : nat;
  content : option string;
}.

Record Question := mkQuestion {
  id : string;
  questionNumber : Z;
  questionText : string;
  options : list string;
  correctAnswer : string;
  userAnswer : option string;
}.

Record Permissions := mkPermissions {
  camera : bool;
  microphone : bool;
}.

(** The data fields of [AssessmentState]; the setters are the functions
    below. *)
Record AssessmentState := mkState {
  currentAssessmentId : option string;
  uploadedFiles : list UploadedFile;
  permissions : Permissions;
  faceEmbedding : option (list float);
  questions : list Question;
  currentQuestionIndex : Z;
  timeRemaining : Z;
  isAssessmentComplete : bool;
}.

(** The object handed to zustand's [set]: the fields it mentions. *)
Record Partial := mkPartial {
  set_currentAssessmentId : option (option string);
  set_uploadedFiles : option (list UploadedFile);
  set_permissions : option Permissions;
  set_faceEmbedding : option (option (list float));
  set_questions : option (list Question);
  set_currentQuestionIndex : option Z;
  set_timeRemaining : option Z;
  set_isAssessmentComplete : option bool;
}.

(** [set(partial)]: the partial object is merged into the state; a field it
    does not mention keeps its value. *)
Definition set (p : Partial) (s : AssessmentState) : AssessmentState :=
  {| currentAssessmentId := default (currentAssessmentId s) (set_currentAssessmentId p);
     uploadedFiles := default (uploadedFiles s) (set_uploadedFiles p);
     permissions := default (permissions s) (set_permissions p);
     faceEmbedding := default (faceEmbedding s) (set_faceEmbedding p);
     questions := default (questions s) (set_questions p);
     currentQuestionIndex := default (currentQuestionIndex s) (set_currentQuestionIndex p);
     timeRemaining := default (timeRemaining s) (set_timeRemaining p);
     isAssessmentComplete := default (isAssessmentComplete s) (set_isAssessmentComplete p) |}.

(** The state [create] starts from. *)
Definition initial : AssessmentState :=
  {| currentAssessmentId := None;
     uploadedFiles := [];
     permissions := {| camera := false; microphone := false |};
     faceEmbedding := None;
     questions := [];
     currentQuestionIndex := 0;
     timeRemaining := 30;
     isAssessmentComplete := false |}.

Definition setCurrentAssessmentId (i : option string) : AssessmentState -> AssessmentState :=
  set {| set_currentAssessmentId := Some i; set_uploadedFiles := None;
         set_permissions := None; set_faceEmbedding := None;
         set_questions := None; set_currentQuestionIndex := None;
         set_timeRemaining := None; set_isAssessmentComplete := None |}.

Definition setUploadedFiles (files : list UploadedFile) : AssessmentState -> AssessmentState :=
  set {| set_currentAssessmentId := None; set_uploadedFiles := Some files;
         set_permissions := None; set_faceEmbedding := None;
         set_questions := None; set_currentQuestionIndex := None;
         set_timeRemaining := None; set_isAssessmentComplete := None |}.

Definition setPermissions (p : Permissions) : AssessmentState -> AssessmentState :=
  set {| set_currentAssessmentId := None; set_uploadedFiles := None;
         set_permissions := Some p; set_faceEmbedding := None;
         set_questions := None; set_currentQuestionIndex := None;
         set_timeRemaining := None; set_isAssessmentComplete := None |}.

Definition setFaceEmbedding (e : option (list float)) : AssessmentState -> AssessmentState :=
  set {| set_currentAssessmentId := None; set_uploadedFiles := None;
         set_permissions := None; set_faceEmbedding := Some e;
         set_questions := None; set_currentQuestionIndex := None;
         set_timeRemaining := None; set_isAssessmentComplete := None |}.

Definition setQuestions (qs : list Question) : AssessmentState -> AssessmentState :=
  set {| set_currentAssessmentId := None; set_uploadedFiles := None;
         set_permissions := None; set_faceEmbedding := None;
         set_questions := Some qs; set_currentQuestionIndex := None;
         set_timeRemaining := None; set_isAssessmentComplete := None |}.

Definition setCurrentQuestionIndex (i : Z) : AssessmentState -> AssessmentState :=
  set {| set_currentAssessmentId := None; set_uploadedFiles := None;
         set_permissions := None; set_faceEmbedding := None;
         set_questions := None; set_currentQuestionIndex := Some i;
         set_timeRemaining := None; set_isAssessmentComplete := None |}.

Definition setTimeRemaining (t : Z) : AssessmentState -> AssessmentState :=
  set {| set_currentAssessmentId := None; set_uploadedFiles := None;
         set_permissions := None; set_faceEmbedding := None;
         set_questions := None; set_currentQuestionIndex := None;
         set_timeRemaining := Some t; set_isAssessmentComplete := None |}.

Definition setAssessmentComplete (c : bool) : AssessmentState -> AssessmentState :=
  set {| set_currentAssessmentId := None; set_uploadedFiles := None;
         set_permissions := None; set_faceEmbedding := None;
         set_questions := None; set_currentQuestionIndex := None;
         set_timeRemaining := None; set_isAssessmentComplete := Some c |}.

(** [{ ...q, userAnswer: answer }]. *)
Definition withUserAnswer (answer : string) (q : Question) : Question :=
  {| id := id q; questionNumber := questionNumber q;
     questionText := questionText q; options := options q;
     correctAnswer := correctAnswer q; userAnswer := Some answer |}.

(** [setUserAnswer]: the questions are mapped with their index; the index the
    caller gives is any number, here any integer. *)
Definition setUserAnswer (questionIndex : Z) (answer : string)
    (s : AssessmentState) : AssessmentState :=
  set {| set_currentAssessmentId := None; set_uploadedFiles := None;
         set_permissions := None; set_faceEmbedding := None;
         set_questions :=
           Some (imap (fun i q =>
                         if decide (Z.of_nat i = questionIndex)
                         then withUserAnswer answer q else q)
                      (questions s));
         set_currentQuestionIndex := None;
         set_timeRemaining := None; set_isAssessmentComplete := None |} s.

(** [resetAssessment]: the object it passes to [set] names seven fields;
    [permissions] is not among them. *)
Definition resetAssessment : AssessmentState -> AssessmentState :=
  set {| set_currentAssessmentId := Some None;
         set_uploadedFiles := Some [];
         set_permissions := None;
         set_faceEmbedding := Some None;
         set_questions := Some [];
         set_currentQuestionIndex := Some 0;
         set_timeRemaining := Some 30;
         set_isAssessmentComplete := Some false |}.

(** The store after the camera has been granted on the permissions page. *)
Definition camera_granted : AssessmentState :=
  setPermissions {| camera := true; microphone := false |} initial.

End Store.

(* ===================================================================== *)
(** ** Archive upload ([FileUpload.tsx])                                  *)
(* ===================================================================== *)

Module Upload.

Import Js.

(** An entry of a loaded archive: whether it is a directory, and what reading
    it as text gives ([None]: the read is rejected). *)
Record ZipEntry := mkEntry {
  dir : bool;
  async_text : option string;
}.

(** The browser file: its name, and what [JSZip.loadAsync] makes of its bytes:
    the entries by path, in the order [Object.entries] lists them, or [None]
    when the bytes are not an archive. *)
Record File := mkFile {
  file_name : string;
  loadAsync : option (list (string * ZipEntry));
}.

(** What the handler does to the outside, in order. *)
Inductive Effect :=
| toast_error (msg : string)
| toast_success (msg : string)
| zip_loadAsync (file : string)
| entry_async_text (path : string).

(** The test of the extraction loop. *)
Definition kept (path : string) (e : ZipEntry) : bool :=
  negb (dir e) && negb (includes path "node_modules") && negb (includes path ".git").

(** The [for ... of] loop: [files] is the array built so far, the trace
    collects the reads.  [None] for the files: a read was rejected and the loop
    was left for the [catch]. *)
Fixpoint extract (entries : list (string * ZipEntry)) (files : list Store.UploadedFile)
    : list Effect * option (list Store.UploadedFile) :=
  match entries with
  | [] => ([], Some files)
  | (path, zipEntry) :: rest =>
      if kept path zipEntry then
        match async_text zipEntry with
        | Some content =>
            let file := {| Store.name := path; Store.path := path;
                           Store.size := String.length content;
                           Store.content := Some (substring0 500 content) |} in
            let '(tr, r) := extract rest (files ++ [file]) in
            (entry_async_text path :: tr, r)
        | None => ([entry_async_text path], None)
        end
      else extract rest files
  end.

(** [handleFileUpload]: the trace of effects and the store afterwards. *)
Definition handleFileUpload (file : File) (s : Store.AssessmentState)
    : list Effect * Store.AssessmentState :=
  if negb (endsWith (file_name file) ".zip") then
    ([toast_error "Please upload a ZIP file"], s)
  else
    match loadAsync file with
    | None =>
        ([zip_loadAsync (file_name file); toast_error "Failed to extract ZIP file"], s)
    | Some contents =>
        match extract contents [] with
        | (tr, Some files) =>
            (zip_loadAsync (file_name file) :: tr ++
               [toast_success ("Extracted " +:+ pretty.pretty (length files) +:+ " files")],
             Store.setUploadedFiles files s)
        | (tr, None) =>
            (zip_loadAsync (file_name file) :: tr ++
               [toast_error "Failed to extract ZIP file"], s)
        end
    end.

(** What the loop guarantees of a file it pushed, given the archive it read
    from. *)
Definition extracted_from (contents : list (string * ZipEntry))
    (f : Store.UploadedFile) : Prop :=
  exists (e : ZipEntry) (text : string),
    (Store.path f, e) ∈ contents
    /\ Store.name f = Store.path f
    /\ dir e = false
    /\ Js.includes (Store.path f) "node_modules" = false
    /\ Js.includes (Store.path f) ".git" = false
    /\ async_text e = Some text
    /\ Store.size f = String.length text
    /\ Store.content f = Some (Js.substring0 500 text).

(** Two files a user may drop: a text file, and an archive of a small
    project. *)
Definition notes_txt : File :=
  {| file_name := "notes.txt"; loadAsync := None |}.

Definition project_zip : File :=
  {| file_name := "project.zip";
     loadAsync := Some [
       ("src/", mkEntry true (Some ""));
       ("src/App.tsx", mkEntry false (Some "export default App;"));
       ("node_modules/react/index.js", mkEntry false (Some "module.exports = {};"));
       (".git/config", mkEntry false (Some "[core]"))] |}.

End Upload.

(* ===================================================================== *)
(** ** The proctoring loop ([FaceVerification])                           *)
(* ===================================================================== *)

Module Proctor.

Local Open Scope Z_scope.

Inductive VerificationStatus :=
| verifying | verified | mismatch | multiple_faces | no_face.

Inductive Severity := warning | critical.

(** The [details] objects the loop attaches to a violation. *)
Inductive Details :=
| details_message (message : string)
| details_count (count : nat)
| details_distance (distance : float).

(** A row inserted into [proctoring_logs]. *)
Record ProctoringLog := mkLog {
  assessment_id : string;
  user_id : string;
  event_type : string;
  severity : Severity;
  details : Details;
}.

Inductive Toast :=
| toast_error (msg : string)
| toast_warning (msg : string).

(** The props of the component and the signed-in user that
    [supabase.auth.getUser] reports ([None]: nobody). *)
Record Env := mkEnv {
  assessmentId : string;
  registeredEmbedding : list float;
  auth_user : option string;
}.

(** The bindings of one render that [verifyFace] and [handleViolation] close
    over: they are constants of that render. *)
Record Render := mkRender {
  r_modelsLoaded : bool;
  r_violationCount : Z;
}.

(** React state, refs, and what the component has sent out so far. *)
Record State := mkState {
  modelsLoaded : bool;
  verificationStatus : VerificationStatus;
  violationCount : Z;
  lastViolationRef : Z;
  detectionIntervalRef : option Render;
  proctoring_logs : list ProctoringLog;
  onViolation : list Severity;
  toasts : list Toast;
}.

Definition initial : State :=
  {| modelsLoaded := false; verificationStatus := verifying;
     violationCount := 0; lastViolationRef := 0;
     detectionIntervalRef := None;
     proctoring_logs := []; onViolation := []; toasts := [] |}.

(** What the functions of a render see. *)
Definition render (s : State) : Render :=
  {| r_modelsLoaded := modelsLoaded s; r_violationCount := violationCount s |}.

Definition setModelsLoaded (b : bool) (s : State) : State :=
  mkState b (verificationStatus s) (violationCount s) (lastViolationRef s)
          (detectionIntervalRef s) (proctoring_logs s) (onViolation s) (toasts s).

Definition setVerificationStatus (v : VerificationStatus) (s : State) : State :=
  mkState (modelsLoaded s) v (violationCount s) (lastViolationRef s)
          (detectionIntervalRef s) (proctoring_logs s) (onViolation s) (toasts s).

Definition setViolationCount (n : Z) (s : State) : State :=
  mkState (modelsLoaded s) (verificationStatus s) n (lastViolationRef s)
          (detectionIntervalRef s) (proctoring_logs s) (onViolation s) (toasts s).

Definition setLastViolation (t : Z) (s : State) : State :=
  mkState (modelsLoaded s) (verificationStatus s) (violationCount s) t
          (detectionIntervalRef s) (proctoring_logs s) (onViolation s) (toasts s).

Definition setDetectionInterval (i : option Render) (s : State) : State :=
  mkState (modelsLoaded s) (verificationStatus s) (violationCount s)
          (lastViolationRef s) i (proctoring_logs s) (onViolation s) (toasts s).

Definition insertLog (row : ProctoringLog) (s : State) : State :=
  mkState (modelsLoaded s) (verificationStatus s) (violationCount s)
          (lastViolationRef s) (detectionIntervalRef s)
          (proctoring_logs s ++ [row]) (onViolation s) (toasts s).

Definition callOnViolation (sev : Severity) (s : State) : State :=
  mkState (modelsLoaded s) (verificationStatus s) (violationCount s)
          (lastViolationRef s) (detectionIntervalRef s)
          (proctoring_logs s) (onViolation s ++ [sev]) (toasts s).

Definition toast (t : Toast) (s : State) : State :=
  mkState (modelsLoaded s) (verificationStatus s) (violationCount s)
          (lastViolationRef s) (detectionIntervalRef s)
          (proctoring_logs s) (onViolation s) (toasts s ++ [t]).

(** [logProctorEvent]: nothing is inserted when nobody is signed in. *)
Definition logProctorEvent (env : Env) (eventType : string) (sev : Severity)
    (det : Details) (s : State) : State :=
  match auth_user env with
  | None => s
  | Some user =>
      insertLog {| assessment_id := assessmentId env; user_id := user;
                   event_type := eventType; severity := sev; details := det |} s
  end.

(** [handleViolation] of render [r], called when the clock reads [now]
    milliseconds. *)
Definition handleViolation (r : Render) (env : Env) (now : Z)
    (eventType : string) (sev : Severity) (det : Details) (s : State) : State :=
  if now - lastViolationRef s <? 5000 then s
  else
    let s := setLastViolation now s in
    let s := logProctorEvent env eventType sev det s in
    let newCount := r_violationCount r + 1 in
    let s := setViolationCount newCount s in
    match sev with
    | critical =>
        let s := callOnViolation critical s in
        if decide (eventType = "multiple_faces") then
          toast (toast_error "Multiple faces detected! Assessment paused.") s
        else if decide (eventType = "face_mismatch") then
          toast (toast_error "Face mismatch detected! Assessment paused.") s
        else s
    | warning =>
        let s := callOnViolation warning s in
        toast (toast_warning ("Proctoring warning: " +:+ eventType)) s
    end.

(** face-api.js's [euclideanDistance]: it throws ([None]) on arrays of
    different lengths, and is otherwise the square root of the sum of the
    squared differences, summed from the left. *)
Definition euclideanDistance (arr1 arr2 : list float) : option float :=
  if decide (length arr1 = length arr2) then
    Some (PrimFloat.sqrt
            (foldl (fun res diff => (res + diff * diff)%float) 0%float
                   (zip_with PrimFloat.sub arr1 arr2)))
  else None.

(** The comparison threshold, the binary64 number written [0.6]. *)
Definition threshold : float := 0x1.3333333333333p-1%float.

(** What a tick finds: no webcam or video element, a detector that rejects,
    or the descriptors of the faces detected. *)
Inductive Frame :=
| no_video
| detection_fails
| detections (descriptors : list (list float)).

(** [verifyFace] of render [r]. An exception in the [try] block is caught and
    logged to the console: the state stays as it is. *)
Definition verifyFace (r : Render) (env : Env) (now : Z) (frame : Frame)
    (s : State) : State :=
  if negb (r_modelsLoaded r) then s
  else
    match frame with
    | no_video => s
    | detection_fails => s
    | detections ds =>
        if decide (length ds = 0%nat) then
          let s := handleViolation r env now "no_face" warning
                     (details_message "No face detected") s in
          setVerificationStatus no_face s
        else if decide (1 < length ds)%nat then
          let s := handleViolation r env now "multiple_faces" critical
                     (details_count (length ds)) s in
          setVerificationStatus multiple_faces s
        else
          match head ds with
          | None => s
          | Some currentDescriptor =>
              match euclideanDistance (registeredEmbedding env) currentDescriptor with
              | None => s
              | Some distance =>
                  if (distance <? threshold)%float then
                    let s := setVerificationStatus verified s in
                    if r_violationCount r >? 0 then setViolationCount 0 s else s
                  else
                    let s := handleViolation r env now "face_mismatch" critical
                               (details_distance distance) s in
                    setVerificationStatus mismatch s
              end
          end
    end.

(** The life of the mounted component.  [models_loaded]: [loadModels] resolved;
    [setModelsLoaded(true)] re-renders, and the effect that depends on
    [modelsLoaded] calls [startVerification] of that render: the interval
    keeps calling that render's [verifyFace].  No later render replaces the
    callback: the effect runs again only when [modelsLoaded] changes. *)
Inductive Event :=
| models_loaded
| models_failed
| interval_fires (now : Z) (frame : Frame).

Definition step (env : Env) (e : Event) (s : State) : State :=
  match e with
  | models_loaded =>
      if modelsLoaded s then s
      else
        let s := setModelsLoaded true s in
        setDetectionInterval (Some (render s)) s
  | models_failed =>
      toast (toast_error "Failed to load verification models") s
  | interval_fires now frame =>
      match detectionIntervalRef s with
      | Some r => verifyFace r env now frame s
      | None => s
      end
  end.

Definition run (env : Env) (es : list Event) (s : State) : State :=
  foldl (fun s e => step env e s) s es.

(** A sequence of violations raised by one render, each with its clock. *)
Record Violation := mkViolation {
  v_now : Z;
  v_eventType : string;
  v_severity : Severity;
  v_details : Details;
}.

Definition raise (r : Render) (env : Env) (v : Violation) (s : State) : State :=
  handleViolation r env (v_now v) (v_eventType v) (v_severity v) (v_details v) s.

Definition raise_all (r : Render) (env : Env) (vs : list Violation) (s : State) : State :=
  foldl (fun s v => raise r env v s) s vs.

(** The render the interval holds on to: the one that follows
    [setModelsLoaded(true)], when no violation has been counted yet. *)
Definition running : Render :=
  {| r_modelsLoaded := true; r_violationCount := 0 |}.

(** A session: a signed-in candidate with a registered descriptor; the models
    load, a tick finds nobody in front of the camera, and two seconds later a
    tick finds the registered face again. *)
Definition candidate : Env :=
  {| assessmentId := "assessment-1";
     registeredEmbedding := [0.5%float; 0.25%float; 0.125%float];
     auth_user := Some "user-1" |}.

Definition nobody_then_candidate : list Event :=
  [models_loaded;
   interval_fires 1700000000000 (detections []);
   interval_fires 1700000002000 (detections [[0.5%float; 0.25%float; 0.125%float]])].

(** The rows a violation that passes the cool-down inserts. *)
Definition rows (env : Env) (eventType : string) (sev : Severity) (det : Details)
    : list ProctoringLog :=
  match auth_user env with
  | Some user => [{| assessment_id := assessmentId env; user_id := user;
                     event_type := eventType; severity := sev; details := det |}]
  | None => []
  end.

(** What holds of the component at any time: before the models are loaded
    there is no interval and no violation has been counted; afterwards the
    interval calls the render [running]. *)
Definition loop_invariant (s : State) : Prop :=
  (modelsLoaded s = false /\ detectionIntervalRef s = None /\ violationCount s = 0)
  \/ (modelsLoaded s = true /\ detectionIntervalRef s = Some running).

End Proctor.

(* ===================================================================== *)
(** ** The question screen ([Questions.tsx])                              *)
(* ===================================================================== *)

Module QuestionScreen.

Local Open Scope Z_scope.

Inductive Toast :=
| toast_error (msg : string)
| toast_warning (msg : string).

Inductive ViolationType := multiple_faces | no_face | phone_detected.

(** The [messages] table of [handleViolation]. *)
Definition messages (t : ViolationType) : string :=
  match t with
  | multiple_faces => "Multiple faces detected"
  | no_face => "No face detected"
  | phone_detected => "Mobile device detected"
  end.

(** The store, the component's own state, where it has navigated to, and the
    rows of [questions] it has updated (question id, answer). *)
Record State := mkState {
  store : Store.AssessmentState;
  loading : bool;
  selectedAnswer : string;
  violations : list string;
  isMonitoringValid : bool;
  bluetoothWarning : bool;
  assessmentPaused : bool;
  navigated : option string;
  question_updates : list (string * string);
  toasts : list Toast;
}.

Definition withStore (f : Store.AssessmentState -> Store.AssessmentState)
    (s : State) : State :=
  mkState (f (store s)) (loading s) (selectedAnswer s) (violations s)
          (isMonitoringValid s) (bluetoothWarning s) (assessmentPaused s)
          (navigated s) (question_updates s) (toasts s).

Definition setLoading (b : bool) (s : State) : State :=
  mkState (store s) b (selectedAnswer s) (violations s)
          (isMonitoringValid s) (bluetoothWarning s) (assessmentPaused s)
          (navigated s) (question_updates s) (toasts s).

Definition setSelectedAnswer (a : string) (s : State) : State :=
  mkState (store s) (loading s) a (violations s)
          (isMonitoringValid s) (bluetoothWarning s) (assessmentPaused s)
          (navigated s) (question_updates s) (toasts s).

Definition addViolation (v : string) (s : State) : State :=
  mkState (store s) (loading s) (selectedAnswer s) (violations s ++ [v])
          (isMonitoringValid s) (bluetoothWarning s) (assessmentPaused s)
          (navigated s) (question_updates s) (toasts s).

Definition setIsMonitoringValid (b : bool) (s : State) : State :=
  mkState (store s) (loading s) (selectedAnswer s) (violations s)
          b (bluetoothWarning s) (assessmentPaused s)
          (navigated s) (question_updates s) (toasts s).

Definition setBluetoothWarning (b : bool) (s : State) : State :=
  mkState (store s) (loading s) (selectedAnswer s) (violations s)
          (isMonitoringValid s) b (assessmentPaused s)
          (navigated s) (question_updates s) (toasts s).

Definition setAssessmentPaused (b : bool) (s : State) : State :=
  mkState (store s) (loading s) (selectedAnswer s) (violations s)
          (isMonitoringValid s) (bluetoothWarning s) b
          (navigated s) (question_updates s) (toasts s).

Definition navigate (to : string) (s : State) : State :=
  mkState (store s) (loading s) (selectedAnswer s) (violations s)
          (isMonitoringValid s) (bluetoothWarning s) (assessmentPaused s)
          (Some to) (question_updates s) (toasts s).

Definition updateQuestion (qid answer : string) (s : State) : State :=
  mkState (store s) (loading s) (selectedAnswer s) (violations s)
          (isMonitoringValid s) (bluetoothWarning s) (assessmentPaused s)
          (navigated s) (question_updates s ++ [(qid, answer)]) (toasts s).

Definition toast (t : Toast) (s : State) : State :=
  mkState (store s) (loading s) (selectedAnswer s) (violations s)
          (isMonitoringValid s) (bluetoothWarning s) (assessmentPaused s)
          (navigated s) (question_updates s) (toasts s ++ [t]).

(** [questions[i]] for a number [i]: [undefined] outside the array. *)
Definition at_index {A} (l : list A) (i : Z) : option A :=
  if i <? 0 then None else l !! Z.to_nat i.

Definition currentQuestion (s : State) : option Store.Question :=
  at_index (Store.questions (store s)) (Store.currentQuestionIndex (store s)).

(** [handleViolation] of a render whose [violations] were [seen]. *)
Definition handleViolation (seen : list string) (t : ViolationType) (s : State) : State :=
  if decide (messages t ∈ seen) then s
  else toast (toast_warning (messages t)) (addViolation (messages t) s).

(** [handleProctorViolation] of a render whose [violations] were [seen]. *)
Definition handleProctorViolation (seen : list string) (sev : Proctor.Severity)
    (s : State) : State :=
  match sev with
  | Proctor.critical =>
      let s := setAssessmentPaused true s in
      let s := setIsMonitoringValid false s in
      toast (toast_error
        "Assessment paused due to proctoring violation. Please resolve the issue.") s
  | Proctor.warning =>
      if decide ("Proctoring warning" ∈ seen) then s
      else addViolation "Proctoring warning" s
  end.

(** [handleAnswerSelect]. *)
Definition handleAnswerSelect (answer : string) (s : State) : State :=
  if negb (isMonitoringValid s) then
    toast (toast_error "Cannot select answer - monitoring violation detected") s
  else setSelectedAnswer answer s.

(** The second half of [handleNextQuestion]. *)
Definition advance (s : State) : State :=
  let i := Store.currentQuestionIndex (store s) in
  if i <? Z.of_nat (length (Store.questions (store s))) - 1 then
    let s := withStore (Store.setCurrentQuestionIndex (i + 1)) s in
    let s := setSelectedAnswer "" s in
    withStore (Store.setTimeRemaining 30) s
  else navigate "/assessment-complete" s.

(** [handleNextQuestion].  With a selected answer the store and the database
    row are updated first; reading the [id] of a question that is not there
    throws, and the function ends there. *)
Definition handleNextQuestion (s : State) : State :=
  if decide (selectedAnswer s = "") then advance s
  else
    let q := currentQuestion s in
    let s := withStore (Store.setUserAnswer (Store.currentQuestionIndex (store s))
                                            (selectedAnswer s)) s in
    match q with
    | None => s
    | Some q => advance (updateQuestion (Store.id q) (selectedAnswer s) s)
    end.

(** The effect that depends on [timeRemaining], after a render with a new
    value: above zero it arms the one-second timeout, at zero it calls
    [handleNextQuestion]. *)
Definition timeRemaining_effect (s : State) : State :=
  if Store.timeRemaining (store s) >? 0 then s else handleNextQuestion s.

(** The component as it mounts over a store: its own state starts from the
    [useState] defaults, and the effects of the first render run: the guard
    that sends a visitor who is not signed in, or who has uploaded nothing,
    elsewhere, then the countdown effect. *)
Definition mount (signed_in : bool) (st : Store.AssessmentState) : State :=
  let s := {| store := st; loading := true; selectedAnswer := "";
              violations := []; isMonitoringValid := false;
              bluetoothWarning := false; assessmentPaused := false;
              navigated := None; question_updates := []; toasts := [] |} in
  let s := if negb signed_in then navigate "/auth" s
           else if decide (length (Store.uploadedFiles st) = 0%nat)
                then navigate "/upload" s else s in
  timeRemaining_effect s.

(** What can happen to the mounted component. *)
Inductive Event :=
| assessment_created (assessment : string)
| questions_generated (generated : option (list Store.Question))
| initialize_failed
| timeout_fires
| click_option (option : string)
| click_next
| click_resume
| proctor_violation (seen : list string) (severity : Proctor.Severity)
| face_violation (seen : list string) (type : ViolationType)
| validity_change (isValid : bool)
| bluetooth_checked (devices : nat).

(** The option buttons are rendered once loading is over, for the options of
    the current question, and are disabled while monitoring is not valid. *)
Definition option_enabled (o : string) (s : State) : bool :=
  negb (loading s) &&
  match currentQuestion s with
  | Some q => bool_decide (o ∈ Store.options q)
  | None => false
  end &&
  isMonitoringValid s.

(** The Next button: [disabled={!selectedAnswer}]. *)
Definition next_enabled (s : State) : bool :=
  negb (loading s) && negb (bool_decide (selectedAnswer s = "")).

Definition step (e : Event) (s : State) : State :=
  match navigated s with
  | Some _ => s
  | None =>
      match e with
      | assessment_created assessment =>
          withStore (Store.setCurrentAssessmentId (Some assessment)) s
      | questions_generated generated =>
          let s := match generated with
                   | Some qs => withStore (Store.setQuestions qs) s
                   | None => s
                   end in
          setLoading false s
      | initialize_failed =>
          navigate "/dashboard" (toast (toast_error "Failed to initialize assessment") s)
      | timeout_fires =>
          if Store.timeRemaining (store s) >? 0 then
            timeRemaining_effect
              (withStore (Store.setTimeRemaining (Store.timeRemaining (store s) - 1)) s)
          else s
      | click_option o =>
          if option_enabled o s then handleAnswerSelect o s else s
      | click_next =>
          if next_enabled s then handleNextQuestion s else s
      | click_resume =>
          if negb (loading s) && assessmentPaused s then
            setIsMonitoringValid true (setAssessmentPaused false s)
          else s
      | proctor_violation seen sev => handleProctorViolation seen sev s
      | face_violation seen t => handleViolation seen t s
      | validity_change b => setIsMonitoringValid b s
      | bluetooth_checked devices =>
          if decide (0 < devices)%nat then
            toast (toast_error "Bluetooth devices detected! Please disable Bluetooth.")
                  (setBluetoothWarning true s)
          else setBluetoothWarning false s
      end
  end.

Definition run (es : list Event) (s : State) : State :=
  foldl (fun s e => step e s) s es.

(** The screen has moved on from the question it showed: the index has
    changed, or the component has navigated to the completion page. *)
Definition advanced (s s' : State) : Prop :=
  Store.currentQuestionIndex (store s') <> Store.currentQuestionIndex (store s)
  \/ (navigated s = None /\ navigated s' = Some "/assessment-complete").

(** A candidate who has uploaded a project, is given two questions, and lets
    the countdown of the first one run without touching the screen. *)
Definition uploaded : Store.AssessmentState :=
  Store.setUploadedFiles
    [{| Store.name := "src/App.tsx"; Store.path := "src/App.tsx";
        Store.size := 19%nat; Store.content := Some "export default App;" |}]
    Store.initial.

Definition two_questions : list Store.Question :=
  [{| Store.id := "q1"; Store.questionNumber := 1;
      Store.questionText := "What does App export?";
      Store.options := ["A component"; "A reducer"; "A hook"; "A store"];
      Store.correctAnswer := "A component"; Store.userAnswer := None |};
   {| Store.id := "q2"; Store.questionNumber := 2;
      Store.questionText := "Which file is the entry point?";
      Store.options := ["App.tsx"; "main.tsx"; "index.html"; "vite.config.ts"];
      Store.correctAnswer := "main.tsx"; Store.userAnswer := None |}].

Definition last_second : State :=
  run (assessment_created "assessment-1"
       :: questions_generated (Some two_questions)
       :: replicate 29 timeout_fires)
      (mount true uploaded).

End QuestionScreen.

(* ===================================================================== *)
(** ** Parsing the model's answer in the serverless handlers              *)
(* ===================================================================== *)

Module Serverless.

#[local] Unset Elimination Schemes.
Inductive JSON :=
| JNull
| JBool (b : bool)
| JNumber (n : float)
| JString (s : string)
| JArray (items : list JSON)
| JObject (fields : list (string * JSON)).
#[local] Set Elimination Schemes.

(** A computation that returns or throws an error with a message. *)
Inductive Try (A : Type) :=
| returned (a : A)
| thrown (message : string).
Arguments returned {A} a.
Arguments thrown {A} message.

#[export] Instance Try_ret : MRet Try := fun A a => returned a.
#[export] Instance Try_bind : MBind Try := fun A B k t =>
  match t with
  | returned a => k a
  | thrown m => thrown m
  end.

Record Response := mkResponse {
  status : nat;
  body : JSON;
}.

(** The [catch] that wraps each handler: an error becomes a 500 response
    carrying its message. *)
Definition serve (t : Try Response) : Response :=
  match t with
  | returned r => r
  | thrown m => {| status := 500; body := JObject [("error", JString m)] |}
  end.

Fixpoint assoc (k : string) (fields : list (string * JSON)) : option JSON :=
  match fields with
  | [] => None
  | (k', v) :: rest => if decide (k = k') then Some v else assoc k rest
  end.

(** [v.k]: reading a property of [null] throws; a value without the property
    gives [undefined] ([None]). *)
Definition member (v : JSON) (k : string) : Try (option JSON) :=
  match v with
  | JNull => thrown ("Cannot read properties of null (reading '" +:+ k +:+ "')")
  | JObject fields => returned (assoc k fields)
  | _ => returned None
  end.

(** A number in a response body: [JSON.stringify] writes [null] for NaN and
    the infinities. *)
Definition number (x : float) : JSON :=
  if PrimFloat.is_nan x || PrimFloat.is_infinity x then JNull else JNumber x.

(** A property whose value may be [undefined]: [JSON.stringify] leaves it
    out. *)
Definition property (k : string) (v : option JSON) : list (string * JSON) :=
  match v with
  | Some v => [(k, v)]
  | None => []
  end.

Section Handlers.

(** The library functions the handlers call on the model's text:
    [JSON.parse] ([None]: it throws), and the two regular-expression matches:
    the text inside a Markdown code fence, and the text from the first opening
    to the last closing brace ([None]: no match). *)
Variable JSON_parse : string -> option JSON.
Variable match_fence : string -> option string.
Variable match_braces : string -> option string.

(** The [try] block of the first evaluation handler and of the question
    generator: [JSON.parse(jsonMatch ? jsonMatch[1] : content)]. *)
Definition parse_fenced (content : string) : option JSON :=
  JSON_parse (default content (match_fence content)).

(** *** [evaluate-assessment], the handler that stores the result *)

Definition default_plagiarismData : JSON :=
  JObject [("plagiarismScore", JNumber 85%float);
           ("summary", JString "Analysis completed successfully.")].

Definition plagiarismData (content : string) : JSON :=
  match parse_fenced content with
  | Some v => v
  | None => default_plagiarismData
  end.

(** From the model's text on: the payload is read, the assessment row is
    updated ([updateError]: the message of the error the update reports, if
    any), and the result is answered. *)
Definition evaluate_and_store (totalScore : float) (content : string)
    (updateError : option string) : Response :=
  serve (
    let data := plagiarismData content in
    plagiarismScore ← member data "plagiarismScore";
    _ ← member data "summary";
    match updateError with
    | Some m => thrown m
    | None =>
        returned {| status := 200;
                    body := JObject ([("totalScore", number totalScore)] ++
                                     property "plagiarismScore" plagiarismScore ++
                                     [("report", data)]) |}
    end).

(** *** [evaluate-assessment], the handler that answers a report *)

Definition default_analysis : JSON :=
  JObject [
    ("plagiarismScore", JNumber 15%float);
    ("codeQualityAnalysis", JObject [
       ("architecture", JString "Clean modular structure with good separation of concerns.");
       ("codeOrganization", JString "Well-organized with clear component hierarchy.");
       ("bestPractices", JString "Follows React best practices and modern patterns.");
       ("overallRating", JNumber 8%float)]);
    ("securitySuggestions", JArray [
       JString "Implement input validation on all user inputs";
       JString "Add rate limiting to API endpoints";
       JString "Use environment variables for sensitive data"]);
    ("optimizationSuggestions", JArray [
       JString "Implement code splitting for better performance";
       JString "Add memoization for expensive computations";
       JString "Optimize bundle size by removing unused dependencies"]);
    ("overallAssessment", JString "Good overall performance with room for optimization.")].

(** The [try] block: no brace match throws like a failed parse does, into the
    same [catch]. *)
Definition analysis (analysisText : string) : JSON :=
  match match_braces analysisText with
  | Some m =>
      match JSON_parse m with
      | Some v => v
      | None => default_analysis
      end
  | None => default_analysis
  end.

Definition evaluate_report (assessmentId : string) (questions : list Scoring.Answer)
    (analysisText : string) : Response :=
  serve (
    let correctAnswers := Scoring.correctCount questions in
    let totalQuestions := length questions in
    let score := Scoring.score questions in
    let a := analysis analysisText in
    plagiarismScore ← member a "plagiarismScore";
    codeQualityAnalysis ← member a "codeQualityAnalysis";
    securitySuggestions ← member a "securitySuggestions";
    optimizationSuggestions ← member a "optimizationSuggestions";
    overallAssessment ← member a "overallAssessment";
    returned {| status := 200;
                body := JObject (
                  [("assessmentId", JString assessmentId);
                   ("score", number score);
                   ("correctAnswers", number (Js.number_of_nat correctAnswers));
                   ("totalQuestions", number (Js.number_of_nat totalQuestions))] ++
                  property "plagiarismScore" plagiarismScore ++
                  property "codeQualityAnalysis" codeQualityAnalysis ++
                  property "securitySuggestions" securitySuggestions ++
                  property "optimizationSuggestions" optimizationSuggestions ++
                  property "overallAssessment" overallAssessment ++
                  [("performanceMetrics", JObject [
                      ("totalQuestions", number (Js.number_of_nat totalQuestions));
                      ("correctAnswers", number (Js.number_of_nat correctAnswers));
                      ("incorrectAnswers",
                         number (Js.number_of_nat totalQuestions
                                 - Js.number_of_nat correctAnswers)%float);
                      ("score", number score)])]) |}).

(** *** [generate-questions] *)

(** The rest of the handler, from the parsed questions on: it cuts them to
    ten, inserts them and answers the inserted rows. *)
Variable insert_questions : JSON -> Try Response.

(** The [catch] of this [try] block throws again. *)
Definition questionsData (content : string) : Try JSON :=
  match parse_fenced content with
  | Some v => returned v
  | None => thrown "Invalid AI response format"
  end.

Definition generate_questions (content : string) : Response :=
  serve (q ← questionsData content; insert_questions q).

End Handlers.

(** The five properties of the analysis that the report copies. *)
Definition analysis_keys : list string :=
  ["plagiarismScore"; "codeQualityAnalysis"; "securitySuggestions";
   "optimizationSuggestions"; "overallAssessment"].

End Serverless.

(* ===================================================================== *)
(** ** Sessions used as examples                                          *)
(* ===================================================================== *)

Module Sessions.

(** Three answers, two of them right. *)
Definition two_of_three : list Scoring.Answer :=
  [Scoring.mkAnswer (Some "A") "A"; Scoring.mkAnswer (Some "B") "C";
   Scoring.mkAnswer (Some "D") "D"].

End Sessions.

(* ===================================================================== *)
(** ** What an upload stores, entry by entry                              *)
(* ===================================================================== *)

Module UploadSpec.

Import Upload.

(** The file the loop pushes for an entry: none for an entry it skips or
    cannot read. *)
Definition stored (entry : string * ZipEntry) : option Store.UploadedFile :=
  let '(path, e) := entry in
  if kept path e then
    (fun text => {| Store.name := path; Store.path := path;
                    Store.size := String.length text;
                    Store.content := Some (Js.substring0 500 text) |})
      <$> async_text e
  else None.

(** An entry the loop would keep but whose text cannot be read. *)
Definition unreadable (entry : string * ZipEntry) : Prop :=
  kept entry.1 entry.2 = true /\ async_text entry.2 = None.

(** An archive whose second source file is damaged. *)
Definition damaged_zip : File :=
  {| file_name := "damaged.zip";
     loadAsync := Some [
       ("src/a.ts", mkEntry false (Some "export const a = 1;"));
       ("src/b.ts", mkEntry false None);
       ("src/c.ts", mkEntry false (Some "export const c = 3;"))] |}.

End UploadSpec.

(* ===================================================================== *)
(** ** Runs of the proctoring loop: clocks and rows                       *)
(* ===================================================================== *)

Module ProctorSpec.

Import Proctor.
Local Open Scope Z_scope.

(** The clock readings of the ticks of a run. *)
Definition tick_times (es : list Event) : list Z :=
  omap (fun e => match e with
                 | interval_fires now _ => Some now
                 | _ => None
                 end) es.

(** The pairs of event type and severity the loop raises. *)
Definition raised (eventType : string) (sev : Severity) : Prop :=
  (eventType = "no_face" /\ sev = warning)
  \/ (eventType = "multiple_faces" /\ sev = critical)
  \/ (eventType = "face_mismatch" /\ sev = critical).

(** A row as the loop of [env] writes it. *)
Definition row_of (env : Env) (row : ProctoringLog) : Prop :=
  assessment_id row = assessmentId env
  /\ auth_user env = Some (user_id row)
  /\ raised (event_type row) (severity row).

(** What one call of [handleViolation] does to the clock, the callback and
    the rows: nothing, or one call at a clock at least five seconds past the
    last one, with at most one row. *)
Definition quiet (s s' : State) : Prop :=
  onViolation s' = onViolation s
  /\ lastViolationRef s' = lastViolationRef s
  /\ proctoring_logs s' = proctoring_logs s.

Definition one_call (now : Z) (s s' : State) : Prop :=
  5000 <= now - lastViolationRef s
  /\ lastViolationRef s' = now
  /\ (exists sev, onViolation s' = onViolation s ++ [sev])
  /\ (length (proctoring_logs s) <= length (proctoring_logs s')
      <= length (proctoring_logs s) + 1)%nat.

(** The violation count as a flag of the callback having been called. *)
Definition flag (s : State) : Prop :=
  (violationCount s = 0 /\ onViolation s = [])
  \/ (violationCount s = 1 /\ onViolation s <> []).

(** Five ticks, two seconds apart, none finding a face. *)
Definition nobody_for_ten_seconds : list Event :=
  [interval_fires 1700000000000 (detections []);
   interval_fires 1700000002000 (detections []);
   interval_fires 1700000004000 (detections []);
   interval_fires 1700000006000 (detections []);
   interval_fires 1700000008000 (detections [])].

End ProctorSpec.

(* ===================================================================== *)
(** ** The question screen: countdowns                                    *)
(* ===================================================================== *)

Module QuestionScreenSpec.

Import QuestionScreen.
Local Open Scope Z_scope.

(** A candidate in front of a question, with nothing selected and the
    countdown running. *)
Definition idle (s : State) : Prop :=
  navigated s = None
  /\ selectedAnswer s = ""
  /\ 1 <= Store.timeRemaining (store s)
  /\ 0 <= Store.currentQuestionIndex (store s)
       < Z.of_nat (length (Store.questions (store s))).

(** The seconds left until the countdown of the last question runs out. *)
Definition seconds_left (s : State) : Z :=
  Store.timeRemaining (store s)
  + 30 * (Z.of_nat (length (Store.questions (store s))) - 1
          - Store.currentQuestionIndex (store s)).

(** The two questions shown, monitoring valid, nothing selected yet. *)
Definition first_question : State :=
  run [assessment_created "assessment-1";
       questions_generated (Some two_questions);
       validity_change true] (mount true uploaded).

End QuestionScreenSpec.

(* ===================================================================== *)
(** ** The rows [generate-questions] inserts                              *)
(* ===================================================================== *)

Module Generate.

Import Serverless.
Local Open Scope Z_scope.

(** An element of [questionsToInsert]; a property the model left out is
    [undefined] ([None]). *)
Record Row := mkRow {
  assessment_id : string;
  question_number : Z;
  question_text : option JSON;
  options : option JSON;
  correct_answer : option JSON;
}.

(** The callback of [map], for the element [q] at [index]. *)
Definition to_row (assessmentId : string) (index : Z) (q : JSON) : Try Row :=
  questionText ← member q "questionText";
  options ← member q "options";
  correctAnswer ← member q "correctAnswer";
  mret {| assessment_id := assessmentId;
          question_number := index + 1;
          question_text := questionText;
          options := options;
          correct_answer := correctAnswer |}.

(** [map] over the elements from [index] on: the first callback that throws
    ends it. *)
Fixpoint to_rows (assessmentId : string) (index : Z) (qs : list JSON) : Try (list Row) :=
  match qs with
  | [] => mret []
  | q :: rest =>
      row ← to_row assessmentId index q;
      rows ← to_rows assessmentId (index + 1) rest;
      mret (row :: rows)
  end.

(** [questionsData.slice(0, 10).map(...)]: only an array has both a [slice]
    and, on what [slice] returns, a [map]. *)
Definition questionsToInsert (assessmentId : string) (questionsData : JSON)
    : Try (list Row) :=
  match questionsData with
  | JArray items => to_rows assessmentId 0 (take 10 items)
  | JString _ => thrown "questionsData.slice(...).map is not a function"
  | JNull => thrown "Cannot read properties of null (reading 'slice')"
  | _ => thrown "questionsData.slice is not a function"
  end.

Section Handler.

Variable JSON_parse : string -> option JSON.
Variable match_fence : string -> option string.

(** The insert into [questions]: the rows as stored, each with its new id, or
    the error the database reports. *)
Variable insert : list Row -> Try (list (string * Row)).

Definition inserted_question (stored : string * Row) : JSON :=
  JObject ([("id", JString stored.1);
            ("questionNumber", JNumber (PrimFloat.of_uint63
                                          (Uint63.of_Z (question_number stored.2))))] ++
           property "questionText" (question_text stored.2) ++
           property "options" (options stored.2) ++
           property "correctAnswer" (correct_answer stored.2)).

(** The handler from the model's text on. *)
Definition handler (assessmentId content : string) : Response :=
  generate_questions JSON_parse match_fence
    (fun questionsData =>
       rows ← questionsToInsert assessmentId questionsData;
       insertedQuestions ← insert rows;
       mret {| status := 200;
               body := JObject [("questions",
                                 JArray (inserted_question <$> insertedQuestions))] |})
    content.

End Handler.


(** A model that answers an object holding the questions, not the array. *)
Definition wrapped_questions : JSON :=
  JObject [("questions", JArray [
    JObject [("questionText", JString "What does App export?");
             ("options", JArray [JString "A component"; JString "A hook"]);
             ("correctAnswer", JString "A component")]])].

End Generate.

(* ===================================================================== *)
(** ** The [assessments] table and its completion trigger                 *)
(* ===================================================================== *)

Module Database.

Local Open Scope Z_scope.

Inductive assessment_status := in_progress | completed | expired.

#[export] Instance assessment_status_eq_dec : EqDecision assessment_status.
Proof. solve_decision. Defined.

(** The columns of a row of [assessments] that updates write; times are
    instants on the database clock. *)
Record Assessment := mkAssessment {
  status : assessment_status;
  total_score : option Z;
  plagiarism_score : option Z;
  assessment_result : option string;
  completed_at : option Z;
}.

(** The [SET] list of an [UPDATE]: the columns it assigns. *)
Record Assignment := mkAssignment {
  set_status : option assessment_status;
  set_total_score : option (option Z);
  set_plagiarism_score : option (option Z);
  set_assessment_result : option (option string);
  set_completed_at : option (option Z);
}.

(** The row the statement proposes: [NEW] before the trigger. *)
Definition assign (a : Assignment) (old : Assessment) : Assessment :=
  {| status := default (status old) (set_status a);
     total_score := default (total_score old) (set_total_score a);
     plagiarism_score := default (plagiarism_score old) (set_plagiarism_score a);
     assessment_result := default (assessment_result old) (set_assessment_result a);
     completed_at := default (completed_at old) (set_completed_at a) |}.

(** [update_assessment_completed_at], run before each update of a row, at
    the instant [now]. *)
Definition update_assessment_completed_at (now : Z) (OLD NEW : Assessment) : Assessment :=
  if bool_decide (status NEW = completed) && negb (bool_decide (status OLD = completed))
  then {| status := status NEW; total_score := total_score NEW;
          plagiarism_score := plagiarism_score NEW;
          assessment_result := assessment_result NEW;
          completed_at := Some now |}
  else NEW.

(** The check constraint [valid_scores]. *)
Definition valid_scores (row : Assessment) : bool :=
  match total_score row with
  | None => true
  | Some t => (0 <=? t) && (t <=? 100)
  end &&
  match plagiarism_score row with
  | None => true
  | Some p => (0 <=? p) && (p <=? 100)
  end.

(** An [UPDATE] of one row at the instant [now]: the trigger runs on the
    proposed row, and the constraint is checked on what it returns; a row that
    fails it is refused ([None]) and the stored row stays. *)
Definition update (now : Z) (a : Assignment) (old : Assessment) : option Assessment :=
  let new := update_assessment_completed_at now old (assign a old) in
  if valid_scores new then Some new else None.

(** The update the evaluation handler sends, and the one the completion page
    sends after it. *)
Definition evaluation (total plagiarism : option Z) (result : string) : Assignment :=
  {| set_status := Some completed; set_total_score := Some total;
     set_plagiarism_score := Some plagiarism;
     set_assessment_result := Some (Some result); set_completed_at := None |}.

Definition mark_completed : Assignment :=
  {| set_status := Some completed; set_total_score := None;
     set_plagiarism_score := None; set_assessment_result := None;
     set_completed_at := None |}.

(** A row as [initializeAssessment] inserts it. *)
Definition started : Assessment :=
  {| status := in_progress; total_score := None; plagiarism_score := None;
     assessment_result := None; completed_at := None |}.

End Database.

(* ===================================================================== *)
(** ** The permissions page ([Permissions], with face registration)       *)
(* ===================================================================== *)

Module PermissionsPage.

Local Open Scope float_scope.

Inductive Toast :=
| toast_error (msg : string)
| toast_success (msg : string).

Record State := mkState {
  store : Store.AssessmentState;
  requesting : bool;
  showFaceRegistration : bool;
  navigated : option string;
  toasts : list Toast;
}.

(** The page as it mounts over a store. *)
Definition mount (st : Store.AssessmentState) : State :=
  {| store := st; requesting := false; showFaceRegistration := false;
     navigated := None; toasts := [] |}.

Definition withStore (f : Store.AssessmentState -> Store.AssessmentState)
    (s : State) : State :=
  mkState (f (store s)) (requesting s) (showFaceRegistration s) (navigated s) (toasts s).

Definition setRequesting (b : bool) (s : State) : State :=
  mkState (store s) b (showFaceRegistration s) (navigated s) (toasts s).

Definition setShowFaceRegistration (b : bool) (s : State) : State :=
  mkState (store s) (requesting s) b (navigated s) (toasts s).

Definition navigate (to : string) (s : State) : State :=
  mkState (store s) (requesting s) (showFaceRegistration s) (Some to) (toasts s).

Definition toast (t : Toast) (s : State) : State :=
  mkState (store s) (requesting s) (showFaceRegistration s) (navigated s)
          (toasts s ++ [t]).

(** [handleGrantAccess], [granted] telling whether [getUserMedia] gave a
    stream. *)
Definition handleGrantAccess (granted : bool) (s : State) : State :=
  let s := setRequesting true s in
  let s :=
    if granted then
      let s := withStore (Store.setPermissions
                            {| Store.camera := true; Store.microphone := false |}) s in
      let s := toast (toast_success
                        "Camera access granted. Please register your face.") s in
      setShowFaceRegistration true s
    else
      let s := toast (toast_error
                        "Camera access denied. Please enable camera to continue.") s in
      withStore (Store.setPermissions
                   {| Store.camera := false; Store.microphone := false |}) s in
  setRequesting false s.

(** The loop of [calculateDistance]: it runs over the indices of
    [embedding1]; an index past the end of [embedding2] reads [undefined],
    which the subtraction turns into NaN. *)
Fixpoint sum_squares (embedding1 embedding2 : list float) (sum : float) : float :=
  match embedding1 with
  | [] => sum
  | x :: rest1 =>
      let y := default PrimFloat.nan (head embedding2) in
      let diff := x - y in
      sum_squares rest1 (tail embedding2) (sum + diff * diff)
  end.

Definition calculateDistance (embedding1 embedding2 : list float) : float :=
  PrimFloat.sqrt (sum_squares embedding1 embedding2 0).

(** What the query of the profile gives: an error, or the profile's
    [face_embedding] ([None]: null). *)
Inductive Profile :=
| query_error (message : string)
| profile (face_embedding : option (list float)).

(** [handleFaceRegistrationComplete]. *)
Definition handleFaceRegistrationComplete (p : Profile) (embeddings : list float)
    (s : State) : State :=
  match p with
  | query_error _ => toast (toast_error "Failed to verify identity") s
  | profile None =>
      toast (toast_error "No profile photo found. Please contact support.") s
  | profile (Some storedEmbedding) =>
      let distance := calculateDistance storedEmbedding embeddings in
      if Proctor.threshold <? distance then
        let s := toast (toast_error
          "Face does not match your profile photo. Only the registered user can take this assessment.") s in
        setShowFaceRegistration false s
      else
        let s := withStore (Store.setFaceEmbedding (Some embeddings)) s in
        let s := setShowFaceRegistration false s in
        toast (toast_success
                 "Identity verified! You can now continue to the assessment.") s
  end.

(** [handleContinue]. *)
Definition handleContinue (s : State) : State :=
  if negb (Store.camera (Store.permissions (store s))) then
    toast (toast_error "Camera access is required to continue") s
  else
    match Store.faceEmbedding (store s) with
    | None => toast (toast_error "Face registration is required to continue") s
    | Some _ => navigate "/questions" s
    end.

(** The dashboard's [handleStartAssessment]: the store is reset before the
    wizard starts over. *)
Definition start_over (st : Store.AssessmentState) : Store.AssessmentState :=
  Store.resetAssessment st.

End PermissionsPage.

(* ===================================================================== *)
(** ** The face monitor of the question screen ([FaceDetection])          *)
(* ===================================================================== *)

Module FaceDetection.

Record State := mkState {
  modelsLoaded : bool;
  faceCount : nat;
  warning : option string;
}.

Definition initial : State :=
  {| modelsLoaded := false; faceCount := 0; warning := None |}.

(** What the interval finds: a video that is not ready yet, or the number of
    faces detected. *)
Inductive Frame :=
| not_ready
| faces (n : nat).

(** One run of the interval's callback: the component's state afterwards, and
    the calls it makes to the question screen, in order.  [seen] are the
    [violations] of the render of the screen whose [handleViolation] the
    component was given. *)
Definition tick (seen : list string) (frame : Frame) (s : State)
    : State * list QuestionScreen.Event :=
  match frame with
  | not_ready => (s, [])
  | faces n =>
      if decide (n = 0%nat) then
        ({| modelsLoaded := modelsLoaded s; faceCount := n;
            warning := Some "No face detected! Please stay in frame." |},
         [QuestionScreen.face_violation seen QuestionScreen.no_face;
          QuestionScreen.validity_change false])
      else if decide (1 < n)%nat then
        ({| modelsLoaded := modelsLoaded s; faceCount := n;
            warning := Some "Multiple faces detected! Only one person allowed." |},
         [QuestionScreen.face_violation seen QuestionScreen.multiple_faces;
          QuestionScreen.validity_change false])
      else
        ({| modelsLoaded := modelsLoaded s; faceCount := n; warning := None |},
         [QuestionScreen.validity_change true])
  end.

End FaceDetection.

(* ===================================================================== *)
(** ** From the answers on the screen to the evaluation                   *)
(* ===================================================================== *)

Module Completion.

(** The [answers] that [processResults] sends to [evaluate-assessment]. *)
Definition answers (questions : list Store.Question) : list Scoring.Answer :=
  (fun q => {| Scoring.userAnswer := Store.userAnswer q;
               Scoring.correctAnswer := Store.correctAnswer q |}) <$> questions.

(** A candidate's two moves on a question: select an option, click Next. *)
Definition answer_with (choice : Store.Question -> string) (q : Store.Question)
    : list QuestionScreen.Event :=
  [QuestionScreen.click_option (choice q); QuestionScreen.click_next].

(** A question that can be answered correctly on the screen: its correct
    answer is among its options and is not the empty string, which the screen
    takes for no selection. *)
Definition answerable (q : Store.Question) : Prop :=
  Store.correctAnswer q ∈ Store.options q /\ Store.correctAnswer q <> "".

Definition answered_correctly (q : Store.Question) : Prop :=
  Store.userAnswer q = Some (Store.correctAnswer q).

(** A candidate in front of question [i], able to select. *)
Definition standing (i : nat) (s : QuestionScreen.State) : Prop :=
  QuestionScreen.navigated s = None /\ QuestionScreen.loading s = false
  /\ QuestionScreen.isMonitoringValid s = true
  /\ Store.currentQuestionIndex (QuestionScreen.store s) = Z.of_nat i.

(** The store of a candidate who has answered the first [i] of the questions
    [qs0] correctly and has not touched the others. *)
Definition progress (qs0 : list Store.Question) (i : nat)
    (qs : list Store.Question) : Prop :=
  length qs = length qs0
  /\ (forall (j : nat) q, (j < i)%nat -> qs !! j = Some q -> answered_correctly q)
  /\ (forall j : nat, (i <= j)%nat -> qs !! j = qs0 !! j).

End Completion.

(* ===================================================================== *)
(** ** Archives and stores used as examples                               *)
(* ===================================================================== *)

Module Examples.

(** An archive with nothing the loop keeps. *)
Definition dependencies_zip : Upload.File :=
  {| Upload.file_name := "deps.zip";
     Upload.loadAsync := Some [
       ("node_modules/", Upload.mkEntry true (Some ""));
       ("node_modules/react/index.js", Upload.mkEntry false (Some "module.exports = {};"));
       (".git/HEAD", Upload.mkEntry false (Some "ref: refs/heads/main"))] |}.

(** A question nobody has answered. *)
Definition unanswered (q : Store.Question) : Prop := Store.userAnswer q = None.

End Examples.

(* ===================================================================== *)
(** * Properties                                                          *)
(* ===================================================================== *)

(* --------------------------------------------------------------------- *)
(** ** Scoring                                                            *)
(* --------------------------------------------------------------------- *)

Section ScoringFacts.

Import Js Scoring.

(** The counter of the first handler and the filter of the second count the
    same answers. *)
Lemma foldl_counter (answers : list Answer) (k : nat) :
  foldl (fun n a => if is_correct a then S n else n) k answers
  = (k + correctCount answers)%nat.
Proof.
  revert k; induction answers as [|a answers IH]; intros k; simpl.
  - unfold correctCount; simpl; lia.
  - rewrite IH. unfold correctCount, is_correct.
    rewrite filter_cons. case_bool_decide; case_decide; simpl; try lia; done.
Qed.

Lemma correctAnswers_correctCount (answers : list Answer) :
  correctAnswers answers = correctCount answers.
Proof. unfold correctAnswers. now rewrite foldl_counter. Qed.

Lemma correctCount_le_length (answers : list Answer) :
  (correctCount answers <= length answers)%nat.
Proof. unfold correctCount. apply length_filter. Qed.

Lemma totalScore_score (answers : list Answer) :
  totalScore answers = score answers.
Proof. unfold totalScore, score. now rewrite correctAnswers_correctCount. Qed.

(** Up to ten questions, the number an assessment has, the binary64
    computation gives the integer percentage, a half rounded up. *)
Lemma percentage_up_to_ten (c n : nat) :
  (1 <= n <= 10)%nat -> (c <= n)%nat ->
  percentage c n = number_of_nat (round_half_up_percent c n).
Proof.
  intros Hn Hc.
  do 11 (destruct n as [|n]; [try lia; clear Hn;
    do 11 (destruct c as [|c]; [try lia; vm_compute; reflexivity|]); lia|]).
  lia.
Qed.

Lemma round_half_up_percent_le (c n : nat) :
  (1 <= n)%nat -> (c <= n)%nat -> (round_half_up_percent c n <= 100)%nat.
Proof.
  intros Hn Hc. unfold round_half_up_percent.
  enough ((200 * c + n) / (2 * n) < 101)%nat by lia.
  apply Nat.Div0.div_lt_upper_bound. lia.
Qed.

Lemma score_up_to_ten_questions (answers : list Answer) :
  (1 <= length answers <= 10)%nat ->
  totalScore answers
  = number_of_nat (round_half_up_percent (correctCount answers) (length answers))
  /\ score answers = totalScore answers
  /\ (round_half_up_percent (correctCount answers) (length answers) <= 100)%nat.
Proof.
  intros Hn. pose proof (correctCount_le_length answers) as Hc.
  split; [|split].
  - unfold totalScore. rewrite correctAnswers_correctCount.
    now apply percentage_up_to_ten.
  - symmetry. apply totalScore_score.
  - apply round_half_up_percent_le; lia.
Qed.

(** Two roundings, of the quotient and of the product, can land below a half
    that the exact value reaches: 23 of 40 is 57.5 percent and scores 57. *)
Lemma percentage_23_of_40 :
  percentage 23 40 = 57%float /\ round_half_up_percent 23 40 = 58%nat.
Proof. split; vm_compute; reflexivity. Qed.

(** [Math_round] on a few numbers, as JavaScript rounds them. *)
Lemma Math_round_examples :
  Math_round 2.5 = 3%float /\ Math_round (-2.5) = (-2)%float
  /\ Math_round 0x1.fffffffffffffp-2 = 0%float
  /\ Math_round 99.5 = 100%float /\ Math_round 57.25 = 57%float
  /\ PrimFloat.is_nan (Math_round PrimFloat.nan) = true
  /\ Math_round PrimFloat.infinity = PrimFloat.infinity.
Proof. repeat split; vm_compute; reflexivity. Qed.

(** C1. On an empty list of answers both handlers divide zero by zero: the
    score is NaN, which compares equal to no number, so to no integer, and
    lies outside [0,100]. *)
Theorem C1_score_of_no_answers_is_NaN :
  PrimFloat.is_nan (totalScore []) = true
  /\ PrimFloat.is_nan (score []) = true
  /\ (0 <=? totalScore [])%float = false
  /\ (totalScore [] <=? 100)%float = false
  /\ forall x : float, (totalScore [] =? x)%float = false.
Proof.
  repeat split; try (vm_compute; reflexivity).
  intros x. rewrite FloatAxioms.eqb_spec.
  replace (totalScore []) with PrimFloat.nan by (vm_compute; reflexivity).
  reflexivity.
Qed.

End ScoringFacts.

(* --------------------------------------------------------------------- *)
(** ** The assessment store                                               *)
(* --------------------------------------------------------------------- *)

Section StoreFacts.

Import Store.
Local Open Scope Z_scope.

(** What [resetAssessment] returns, for any store: the initial values, and
    the permissions the store had. *)
Lemma resetAssessment_spec (s : AssessmentState) :
  resetAssessment s
  = {| currentAssessmentId := None; uploadedFiles := [];
       permissions := permissions s; faceEmbedding := None;
       questions := []; currentQuestionIndex := 0; timeRemaining := 30;
       isAssessmentComplete := false |}.
Proof. reflexivity. Qed.

Lemma resetAssessment_initial_iff (s : AssessmentState) :
  resetAssessment s = initial <-> permissions s = permissions initial.
Proof.
  rewrite resetAssessment_spec. split.
  - intros H. now injection H.
  - intros ->. reflexivity.
Qed.

(** C5. After the camera was granted, [resetAssessment] leaves the camera
    permission at [true]: the store is not back at its initial state, though
    every other field is. *)
Theorem C5_resetAssessment_keeps_permissions :
  camera (permissions (resetAssessment camera_granted)) = true
  /\ resetAssessment camera_granted <> initial
  /\ currentAssessmentId (resetAssessment camera_granted) = None
  /\ uploadedFiles (resetAssessment camera_granted) = []
  /\ faceEmbedding (resetAssessment camera_granted) = None
  /\ questions (resetAssessment camera_granted) = []
  /\ currentQuestionIndex (resetAssessment camera_granted) = 0
  /\ timeRemaining (resetAssessment camera_granted) = 30
  /\ isAssessmentComplete (resetAssessment camera_granted) = false.
Proof.
  repeat split; try reflexivity.
  intros H. apply resetAssessment_initial_iff in H. discriminate H.
Qed.

(** The mapped list, position by position. *)
Lemma setUserAnswer_lookup (s : AssessmentState) (i : Z) (a : string) (j : nat) :
  questions (setUserAnswer i a s) !! j
  = (fun q => if decide (Z.of_nat j = i) then withUserAnswer a q else q)
      <$> questions s !! j.
Proof. unfold setUserAnswer; simpl. apply list_lookup_imap. Qed.

Lemma setUserAnswer_out_of_range (s : AssessmentState) (i : Z) (a : string) :
  i < 0 \/ Z.of_nat (length (questions s)) <= i ->
  questions (setUserAnswer i a s) = questions s.
Proof.
  intros Hi. apply list_eq. intros j. rewrite setUserAnswer_lookup.
  destruct (questions s !! j) as [q|] eqn:Hq; [|reflexivity]. simpl.
  apply lookup_lt_Some in Hq. case_decide; [lia|reflexivity].
Qed.

(** C9. [setUserAnswer i a] changes the answer of the question at index [i]
    and nothing else: the other questions, the other fields of that question
    and the other fields of the store stay, and an index outside the list
    leaves the list as it is. *)
Theorem C9_setUserAnswer_frame (s : AssessmentState) (i : Z) (a : string) :
  (forall j : nat, Z.of_nat j <> i ->
      questions (setUserAnswer i a s) !! j = questions s !! j)
  /\ (forall (j : nat) (q : Question), Z.of_nat j = i ->
      questions s !! j = Some q ->
      exists q', questions (setUserAnswer i a s) !! j = Some q'
        /\ userAnswer q' = Some a
        /\ id q' = id q /\ questionNumber q' = questionNumber q
        /\ questionText q' = questionText q /\ options q' = options q
        /\ correctAnswer q' = correctAnswer q)
  /\ length (questions (setUserAnswer i a s)) = length (questions s)
  /\ currentAssessmentId (setUserAnswer i a s) = currentAssessmentId s
  /\ uploadedFiles (setUserAnswer i a s) = uploadedFiles s
  /\ permissions (setUserAnswer i a s) = permissions s
  /\ faceEmbedding (setUserAnswer i a s) = faceEmbedding s
  /\ currentQuestionIndex (setUserAnswer i a s) = currentQuestionIndex s
  /\ timeRemaining (setUserAnswer i a s) = timeRemaining s
  /\ isAssessmentComplete (setUserAnswer i a s) = isAssessmentComplete s
  /\ (i < 0 \/ Z.of_nat (length (questions s)) <= i ->
      questions (setUserAnswer i a s) = questions s).
Proof.
  split; [|split; [|split]].
  - intros j Hj. rewrite setUserAnswer_lookup.
    destruct (questions s !! j); simpl; [|reflexivity].
    case_decide; [contradiction|reflexivity].
  - intros j q Hj Hq. exists (withUserAnswer a q).
    rewrite setUserAnswer_lookup, Hq. simpl.
    case_decide; [|contradiction]. repeat split; reflexivity.
  - unfold setUserAnswer; simpl. apply length_imap.
  - repeat split; try reflexivity. apply setUserAnswer_out_of_range.
Qed.

End StoreFacts.

(* --------------------------------------------------------------------- *)
(** ** Archive upload                                                     *)
(* --------------------------------------------------------------------- *)

Section UploadFacts.

Import Js Upload.

(** [substring0 n] cuts a prefix of at most [n] code units. *)
Lemma substring0_prefix (n : nat) (s : string) :
  exists rest, s = substring0 n s +:+ rest.
Proof.
  revert s; induction n as [|n IH]; intros s; simpl.
  - now exists s.
  - destruct s as [|c s]; [now exists ""|].
    destruct (IH s) as [rest Hrest]. exists rest.
    change (String c s = String c (substring0 n s +:+ rest)). now f_equal.
Qed.

Lemma substring0_length (n : nat) (s : string) :
  String.length (substring0 n s) = Nat.min n (String.length s).
Proof.
  revert s; induction n as [|n IH]; intros s; simpl; [reflexivity|].
  destruct s as [|c s]; simpl; [reflexivity|]. now rewrite IH.
Qed.

Lemma append_cons (c : Ascii.ascii) (s t : string) :
  String c s +:+ t = String c (s +:+ t).
Proof. reflexivity. Qed.

Lemma substring_whole (s : string) :
  String.substring 0 (String.length s) s = s.
Proof. induction s as [|c s IH]; simpl; [reflexivity|now rewrite IH]. Qed.

Lemma substring_after (pre suf : string) :
  String.substring (String.length pre) (String.length suf) (pre +:+ suf) = suf.
Proof.
  induction pre as [|c pre IH]; [apply substring_whole|].
  rewrite append_cons. simpl. exact IH.
Qed.

Lemma substring_split (s : string) (n k : nat) :
  (n + k = String.length s)%nat ->
  s = String.substring 0 n s +:+ String.substring n k s.
Proof.
  revert n; induction s as [|c s IH]; intros n Hn; simpl in Hn.
  - assert (n = 0 /\ k = 0)%nat as [-> ->] by lia. reflexivity.
  - destruct n as [|n]; simpl.
    + simpl in Hn. subst k. simpl. now rewrite substring_whole.
    + rewrite append_cons. f_equal. apply IH. lia.
Qed.

Lemma length_append (s t : string) :
  String.length (s +:+ t) = (String.length s + String.length t)%nat.
Proof.
  induction s as [|c s IH]; [reflexivity|].
  rewrite append_cons. simpl. now rewrite IH.
Qed.

(** [endsWith] holds of the strings that are something followed by the
    suffix. *)
Lemma endsWith_spec (s suffix : string) :
  endsWith s suffix = true <-> exists pre, s = pre +:+ suffix.
Proof.
  unfold endsWith. split.
  - case_decide as Hk; [|discriminate]. intros H.
    apply bool_decide_eq_true in H.
    exists (String.substring 0 (String.length s - String.length suffix) s).
    rewrite <- H at 2. apply substring_split. lia.
  - intros [pre ->]. rewrite length_append.
    case_decide; [|lia]. apply bool_decide_eq_true.
    replace (String.length pre + String.length suffix - String.length suffix)%nat
      with (String.length pre) by lia.
    apply substring_after.
Qed.

(** [startsWith] and [includes], likewise. *)
Lemma startsWith_spec (s p : string) :
  startsWith s p = true <-> exists rest, s = p +:+ rest.
Proof.
  revert s; induction p as [|c p IH]; intros s.
  - destruct s; simpl; split; eauto.
  - destruct s as [|d s]; simpl.
    + split; [discriminate|]. intros [rest H]. rewrite append_cons in H. discriminate.
    + case_decide as Hcd.
      * subst d. rewrite IH. split; intros [rest H]; exists rest.
        -- rewrite append_cons. now f_equal.
        -- rewrite append_cons in H. now injection H.
      * split; [discriminate|]. intros [rest H]. rewrite append_cons in H.
        injection H as H1 H2. congruence.
Qed.

Lemma includes_spec (s sub : string) :
  includes s sub = true <-> exists pre post, s = pre +:+ sub +:+ post.
Proof.
  induction s as [|c s IH].
  - change (includes "" sub) with (startsWith "" sub || false).
    rewrite orb_false_r, startsWith_spec. split.
    + intros [rest H]. now exists "", rest.
    + intros [pre [post H]]. destruct pre; [now exists post|].
      rewrite append_cons in H. discriminate.
  - change (includes (String c s) sub)
      with (startsWith (String c s) sub || includes s sub).
    rewrite orb_true_iff, startsWith_spec, IH. split.
    + intros [[rest H]|[pre [post H]]].
      * now exists "", rest.
      * exists (String c pre), post. rewrite append_cons. now f_equal.
    + intros [pre [post H]]. destruct pre as [|d pre].
      * left. now exists post.
      * right. rewrite append_cons in H. injection H as _ H. now exists pre, post.
Qed.

Lemma extract_spec (contents entries : list (string * ZipEntry))
    (acc files : list Store.UploadedFile) (tr : list Effect) :
  entries ⊆ contents ->
  Forall (extracted_from contents) acc ->
  extract entries acc = (tr, Some files) ->
  Forall (extracted_from contents) files.
Proof.
  revert acc tr. induction entries as [|[path e] rest IH]; intros acc tr Hsub Hacc Hex.
  - simpl in Hex. now inversion Hex; subst.
  - simpl in Hex.
    assert (rest ⊆ contents) as Hrest by (intros x Hx; apply Hsub; now right).
    destruct (kept path e) eqn:Hkept.
    + destruct (async_text e) as [text|] eqn:Htext; [|discriminate].
      destruct (extract rest _) as [tr' r] eqn:Hrec.
      inversion Hex; subst. eapply IH; [exact Hrest| |exact Hrec].
      apply Forall_app; split; [exact Hacc|]. apply Forall_singleton.
      unfold kept in Hkept.
      apply andb_true_iff in Hkept as [Hkept Hgit].
      apply andb_true_iff in Hkept as [Hdir Hnode].
      apply negb_true_iff in Hdir, Hnode, Hgit.
      exists e, text. simpl. repeat split; try assumption. apply Hsub. now left.
    + eapply IH; eassumption.
Qed.

(** The loop's trace holds reads only. *)
Lemma extract_trace (entries : list (string * ZipEntry))
    (acc : list Store.UploadedFile) :
  Forall (fun eff => exists path, eff = entry_async_text path) (extract entries acc).1.
Proof.
  revert acc; induction entries as [|[path e] rest IH]; intros acc; simpl.
  - constructor.
  - destruct (kept path e); [|apply IH].
    destruct (async_text e) as [text|].
    + specialize (IH (acc ++ [{| Store.name := path; Store.path := path;
                                 Store.size := String.length text;
                                 Store.content := Some (substring0 500 text) |}])).
      destruct (extract rest _) as [tr r]. simpl in *.
      constructor; [now exists path|exact IH].
    + simpl. constructor; [now exists path|constructor].
Qed.

Lemma extract_no_success (entries : list (string * ZipEntry))
    (acc : list Store.UploadedFile) (msg : string) :
  toast_success msg ∉ (extract entries acc).1.
Proof.
  intros Hin. pose proof (extract_trace entries acc) as Htr.
  rewrite Forall_forall in Htr. destruct (Htr _ Hin) as [path Hpath]. discriminate.
Qed.

(** C8. A file whose name does not end in ".zip" is turned away with the
    error toast and nothing else: the archive is not loaded, no entry is
    read, and the store, its uploaded files included, stays as it was. *)
Theorem C8_non_zip_rejected (file : File) (s : Store.AssessmentState) :
  endsWith (file_name file) ".zip" = false ->
  handleFileUpload file s = ([toast_error "Please upload a ZIP file"], s)
  /\ Store.uploadedFiles (handleFileUpload file s).2 = Store.uploadedFiles s
  /\ (forall name, zip_loadAsync name ∉ (handleFileUpload file s).1)
  /\ (forall path, entry_async_text path ∉ (handleFileUpload file s).1).
Proof.
  intros Hname. unfold handleFileUpload. rewrite Hname. simpl.
  repeat split; intros x Hx; apply list_elem_of_singleton in Hx; discriminate.
Qed.

(** A text file is turned away. *)
Lemma C8_non_zip_rejected_witness :
  handleFileUpload notes_txt Store.initial
  = ([toast_error "Please upload a ZIP file"], Store.initial).
Proof.
  apply (C8_non_zip_rejected notes_txt Store.initial). vm_compute. reflexivity.
Defined.

(** C10. When the handler reports success, the stored files all come from
    entries of the archive that are not directories and whose paths include
    neither "node_modules" nor ".git"; the stored size is the length of the
    entry's text and the stored content is a prefix of that text, of at most
    500 code units. *)
Theorem C10_extracted_files (file : File) (s : Store.AssessmentState) (msg : string) :
  toast_success msg ∈ (handleFileUpload file s).1 ->
  exists contents,
    loadAsync file = Some contents
    /\ Forall (fun f =>
          exists (e : ZipEntry) (text stored rest : string),
            (Store.path f, e) ∈ contents
            /\ Store.name f = Store.path f
            /\ dir e = false
            /\ includes (Store.path f) "node_modules" = false
            /\ includes (Store.path f) ".git" = false
            /\ async_text e = Some text
            /\ Store.size f = String.length text
            /\ Store.content f = Some stored
            /\ text = stored +:+ rest
            /\ (String.length stored <= 500)%nat)
        (Store.uploadedFiles (handleFileUpload file s).2).
Proof.
  unfold handleFileUpload. intros Hin.
  destruct (negb (endsWith (file_name file) ".zip")).
  { apply list_elem_of_singleton in Hin. discriminate. }
  destruct (loadAsync file) as [contents|].
  2:{ simpl in Hin. apply elem_of_cons in Hin as [Hin|Hin]; [discriminate|].
      apply list_elem_of_singleton in Hin. discriminate. }
  exists contents. split; [reflexivity|].
  destruct (extract contents []) as [tr [files|]] eqn:Hex; simpl in *.
  - assert (Forall (extracted_from contents) files) as Hfiles.
    { eapply extract_spec; [reflexivity|constructor|exact Hex]. }
    eapply Forall_impl; [exact Hfiles|].
    intros f (e & text & H1 & H2 & H3 & H4 & H5 & H6 & H7 & H8).
    destruct (substring0_prefix 500 text) as [rest Hrest].
    exists e, text, (substring0 500 text), rest.
    repeat split; try assumption.
    rewrite substring0_length. lia.
  - exfalso.
    apply elem_of_cons in Hin as [Hin|Hin]; [discriminate|].
    apply elem_of_app in Hin as [Hin|Hin].
    + pose proof (extract_no_success contents [] msg) as Hno.
      rewrite Hex in Hno. now apply Hno.
    + apply list_elem_of_singleton in Hin. discriminate.
Qed.

(** The archive of the small project is accepted. *)
Lemma C10_extracted_files_witness :
  exists contents,
    loadAsync project_zip = Some contents
    /\ Forall (fun f =>
          exists (e : ZipEntry) (text stored rest : string),
            (Store.path f, e) ∈ contents
            /\ Store.name f = Store.path f
            /\ dir e = false
            /\ includes (Store.path f) "node_modules" = false
            /\ includes (Store.path f) ".git" = false
            /\ async_text e = Some text
            /\ Store.size f = String.length text
            /\ Store.content f = Some stored
            /\ text = stored +:+ rest
            /\ (String.length stored <= 500)%nat)
        (Store.uploadedFiles (handleFileUpload project_zip Store.initial).2).
Proof.
  apply (C10_extracted_files project_zip Store.initial "Extracted 1 files").
  vm_compute. do 2 right. left.
Defined.

(** The archive of the small project leaves one file in the store. *)
Lemma project_zip_uploaded :
  Store.uploadedFiles (handleFileUpload project_zip Store.initial).2
  = [{| Store.name := "src/App.tsx"; Store.path := "src/App.tsx";
        Store.size := 19; Store.content := Some "export default App;" |}].
Proof. vm_compute. reflexivity. Qed.

End UploadFacts.

(* --------------------------------------------------------------------- *)
(** ** The proctoring loop                                                *)
(* --------------------------------------------------------------------- *)

Section ProctorFacts.

Import Proctor.
Local Open Scope Z_scope.

Variable env : Env.

(** *** The cool-down of [handleViolation] *)

Lemma handleViolation_suppressed (r : Render) (now : Z) (eventType : string)
    (sev : Severity) (det : Details) (s : State) :
  now - lastViolationRef s < 5000 ->
  handleViolation r env now eventType sev det s = s.
Proof.
  intros H. unfold handleViolation.
  destruct (Z.ltb_spec (now - lastViolationRef s) 5000); [reflexivity|lia].
Qed.

Lemma handleViolation_passed (r : Render) (now : Z) (eventType : string)
    (sev : Severity) (det : Details) (s : State) :
  5000 <= now - lastViolationRef s ->
  let s' := handleViolation r env now eventType sev det s in
  lastViolationRef s' = now
  /\ proctoring_logs s' = proctoring_logs s ++ rows env eventType sev det
  /\ onViolation s' = onViolation s ++ [sev]
  /\ violationCount s' = r_violationCount r + 1
  /\ verificationStatus s' = verificationStatus s
  /\ modelsLoaded s' = modelsLoaded s
  /\ detectionIntervalRef s' = detectionIntervalRef s.
Proof.
  intros H. unfold handleViolation, rows, logProctorEvent.
  destruct (Z.ltb_spec (now - lastViolationRef s) 5000); [lia|].
  destruct (auth_user env), sev; simpl; repeat case_decide; simpl;
    rewrite ?app_nil_r; repeat split; reflexivity.
Qed.

(** The time of the last violation never goes back, whatever the clock. *)
Lemma handleViolation_lastViolation_mono (r : Render) (now : Z) (eventType : string)
    (sev : Severity) (det : Details) (s : State) :
  lastViolationRef s <= lastViolationRef (handleViolation r env now eventType sev det s).
Proof.
  destruct (Z.lt_ge_cases (now - lastViolationRef s) 5000) as [H|H].
  - rewrite handleViolation_suppressed by exact H. lia.
  - destruct (handleViolation_passed r now eventType sev det s H) as [-> _]. lia.
Qed.

Lemma raise_all_lastViolation_mono (r : Render) (vs : list Violation) (s : State) :
  lastViolationRef s <= lastViolationRef (raise_all r env vs s).
Proof.
  revert s; induction vs as [|v vs IH]; intros s; simpl; [lia|].
  etrans; [|apply IH]. apply handleViolation_lastViolation_mono.
Qed.

(** C2, amended. The cool-down window is the one of the last violation that
    was not itself suppressed.  Once a violation has passed the cool-down, a
    violation raised less than five seconds after it, of whatever type and
    whatever was raised in between, changes nothing: no row is inserted and
    the callback is not called.  Two violations less than five seconds
    apart, the first of which passed the cool-down, so leave one call, and
    one row when the candidate is signed in (none otherwise).  The suppressed
    violation opens no window of its own: a violation raised five seconds or
    more after the last one that passed is logged and dispatched, however
    shortly after the suppressed one it comes. *)
Theorem C2_cooldown_suppresses (r : Render) (s : State)
    (first : Violation) (between : list Violation) (second : Violation) :
  5000 <= v_now first - lastViolationRef s ->
  v_now second - v_now first < 5000 ->
  let s1 := raise_all r env between (raise r env first s) in
  raise r env second s1 = s1
  /\ proctoring_logs (raise r env second s1) = proctoring_logs s1
  /\ onViolation (raise r env second s1) = onViolation s1
  /\ proctoring_logs (raise r env second (raise r env first s))
     = proctoring_logs s
       ++ rows env (v_eventType first) (v_severity first) (v_details first)
  /\ length (rows env (v_eventType first) (v_severity first) (v_details first))
     = (if auth_user env is Some _ then 1 else 0)%nat
  /\ onViolation (raise r env second (raise r env first s))
     = onViolation s ++ [v_severity first]
  /\ (forall third : Violation,
       5000 <= v_now third - lastViolationRef s1 ->
       let s3 := raise r env third (raise r env second s1) in
       proctoring_logs s3
       = proctoring_logs s1
         ++ rows env (v_eventType third) (v_severity third) (v_details third)
       /\ onViolation s3 = onViolation s1 ++ [v_severity third]
       /\ lastViolationRef s3 = v_now third).
Proof.
  intros Hfirst Hsecond s1.
  destruct (handleViolation_passed r (v_now first) (v_eventType first)
              (v_severity first) (v_details first) s Hfirst)
    as (Hlast & Hlogs & Hcalls & _).
  assert (forall s2, v_now first <= lastViolationRef s2 -> raise r env second s2 = s2)
    as Hsupp.
  { intros s2 Hs2. apply handleViolation_suppressed. lia. }
  assert (raise r env second s1 = s1) as Hs1.
  { apply Hsupp. subst s1. etrans; [|apply raise_all_lastViolation_mono].
    unfold raise. lia. }
  split; [exact Hs1|]. rewrite Hs1. split; [reflexivity|]. split; [reflexivity|].
  rewrite (Hsupp (raise r env first s)) by (unfold raise; lia).
  split; [unfold raise; now rewrite Hlogs|].
  split; [unfold rows; now destruct (auth_user env)|].
  split; [unfold raise; now rewrite Hcalls|].
  intros third Hthird.
  destruct (handleViolation_passed r (v_now third) (v_eventType third)
              (v_severity third) (v_details third) s1 Hthird)
    as (Hlast3 & Hlogs3 & Hcalls3 & _).
  cbv zeta. unfold raise. now rewrite Hlast3, Hlogs3, Hcalls3.
Qed.

(** *** The loop's render *)

(** While the interval is armed, the render it calls is the one that
    followed the loading of the models: its [modelsLoaded] is true and its
    [violationCount] is 0, whatever the count has become since. *)
Lemma verifyFace_interval (r : Render) (now : Z) (frame : Frame) (s : State) :
  detectionIntervalRef (verifyFace r env now frame s) = detectionIntervalRef s
  /\ modelsLoaded (verifyFace r env now frame s) = modelsLoaded s.
Proof.
  assert (forall ev sev det,
    detectionIntervalRef (handleViolation r env now ev sev det s)
      = detectionIntervalRef s
    /\ modelsLoaded (handleViolation r env now ev sev det s) = modelsLoaded s) as Hh.
  { intros ev sev det.
    destruct (Z.lt_ge_cases (now - lastViolationRef s) 5000) as [H|H].
    - now rewrite handleViolation_suppressed.
    - destruct (handleViolation_passed r now ev sev det s H)
        as (_ & _ & _ & _ & _ & H1 & H2). now split. }
  unfold verifyFace. destruct (r_modelsLoaded r); simpl; [|now split].
  destruct frame as [| |ds]; [now split..|].
  repeat case_decide; simpl; [apply Hh..|].
  destruct (head ds) as [d|]; [|now split].
  destruct (euclideanDistance _ d) as [dist|]; [|now split].
  destruct (dist <? threshold)%float; simpl; [|apply Hh].
  destruct (r_violationCount r >? 0); now split.
Qed.

Lemma step_invariant (e : Event) (s : State) :
  loop_invariant s -> loop_invariant (step env e s).
Proof.
  intros Hs. destruct e as [| |now frame]; simpl.
  - destruct Hs as [(Hm & Hi & Hc)|(Hm & Hi)]; rewrite Hm.
    + right. unfold render. simpl. now rewrite Hc.
    + now right.
  - exact Hs.
  - destruct Hs as [(Hm & Hi & Hc)|(Hm & Hi)]; rewrite Hi.
    + now left.
    + right. destruct (verifyFace_interval running now frame s) as [-> ->].
      now split.
Qed.

Lemma run_snoc (es : list Event) (e : Event) (s : State) :
  run env (es ++ [e]) s = step env e (run env es s).
Proof. unfold run. now rewrite foldl_app. Qed.

Lemma run_invariant (es : list Event) : loop_invariant (run env es initial).
Proof.
  induction es as [|e es IH] using rev_ind.
  - left. now repeat split.
  - rewrite run_snoc. now apply step_invariant.
Qed.

Lemma interval_render (es : list Event) (r : Render) :
  detectionIntervalRef (run env es initial) = Some r -> r = running.
Proof.
  intros Hr. destruct (run_invariant es) as [(_ & Hi & _)|(_ & Hi)]; congruence.
Qed.

(** *** Ticks *)

(** A tick with one face, while the loop runs: below the threshold the
    status becomes [verified] and nothing else changes, the count included;
    otherwise a critical mismatch is raised and the status becomes
    [mismatch]. *)
Lemma single_face_tick (es : list Event) (now : Z) (d : list float) (dist : float) :
  let s := run env es initial in
  is_Some (detectionIntervalRef s) ->
  euclideanDistance (registeredEmbedding env) d = Some dist ->
  step env (interval_fires now (detections [d])) s
  = if (dist <? threshold)%float
    then setVerificationStatus verified s
    else setVerificationStatus mismatch
           (handleViolation running env now "face_mismatch" critical
                            (details_distance dist) s).
Proof.
  intros s [r Hr] Hd. pose proof (interval_render es r Hr) as ->.
  simpl. fold s. rewrite Hr. unfold verifyFace. simpl. rewrite Hd.
  destruct (dist <? threshold)%float; reflexivity.
Qed.

(** C3. On a tick of the running loop, whatever the status was: more than
    one face gives the status [multiple_faces] after a critical violation was
    handed to [handleViolation], no face gives [no_face] after a warning was;
    outside the cool-down the callback is called with that severity and the
    row is inserted. *)
Theorem C3_status_follows_face_count (es : list Event) (now : Z)
    (ds : list (list float)) :
  let s := run env es initial in
  is_Some (detectionIntervalRef s) ->
  let s' := step env (interval_fires now (detections ds)) s in
  ((1 < length ds)%nat ->
     verificationStatus s' = multiple_faces
     /\ s' = setVerificationStatus multiple_faces
               (handleViolation running env now "multiple_faces" critical
                                (details_count (length ds)) s)
     /\ (5000 <= now - lastViolationRef s ->
          onViolation s' = onViolation s ++ [critical]
          /\ proctoring_logs s'
             = proctoring_logs s
               ++ rows env "multiple_faces" critical (details_count (length ds))))
  /\ (length ds = 0%nat ->
     verificationStatus s' = no_face
     /\ s' = setVerificationStatus no_face
               (handleViolation running env now "no_face" warning
                                (details_message "No face detected") s)
     /\ (5000 <= now - lastViolationRef s ->
          onViolation s' = onViolation s ++ [warning]
          /\ proctoring_logs s'
             = proctoring_logs s
               ++ rows env "no_face" warning (details_message "No face detected"))).
Proof.
  intros s [r Hr] s'. pose proof (interval_render es r Hr) as ->.
  subst s'. simpl. fold s. rewrite Hr. unfold verifyFace. simpl.
  split; intros Hlen.
  - case_decide; [lia|]. case_decide; [|lia].
    split; [reflexivity|]. split; [reflexivity|]. intros Hcool.
    destruct (handleViolation_passed running now "multiple_faces" critical
                (details_count (length ds)) s Hcool) as (_ & Hl & Hc & _).
    simpl. now rewrite Hl, Hc.
  - case_decide; [|lia].
    split; [reflexivity|]. split; [reflexivity|]. intros Hcool.
    destruct (handleViolation_passed running now "no_face" warning
                (details_message "No face detected") s Hcool) as (_ & Hl & Hc & _).
    simpl. now rewrite Hl, Hc.
Qed.

End ProctorFacts.

Section ProctorSessions.

Import Proctor.

(** C2, as stated, fails.  A warning passes the cool-down; four seconds later
    a mismatch is suppressed; two seconds after that mismatch, six seconds
    after the warning, a second mismatch is raised: it is within five seconds
    of a prior violation, and it is logged and dispatched.  And the two
    violations that follow, half a second apart and both within the window
    of that mismatch, leave no row and no call at all, not one. *)
Lemma C2_suppressed_violation_opens_no_window :
  let v0 := mkViolation 1700000000000 "no_face" warning
              (details_message "No face detected") in
  let v1 := mkViolation 1700000004000 "face_mismatch" critical
              (details_distance 0.75%float) in
  let v2 := mkViolation 1700000006000 "face_mismatch" critical
              (details_distance 0.75%float) in
  let v3 := mkViolation 1700000006500 "multiple_faces" critical
              (details_count 2) in
  let v4 := mkViolation 1700000007000 "face_mismatch" critical
              (details_distance 0.75%float) in
  let s0 := raise running candidate v0 initial in
  let s1 := raise running candidate v1 s0 in
  let s2 := raise running candidate v2 s1 in
  s1 = s0
  /\ (v_now v2 - v_now v1 < 5000)%Z
  /\ onViolation s1 = [warning]
  /\ onViolation s2 = [warning; critical]
  /\ length (proctoring_logs s1) = 1%nat
  /\ length (proctoring_logs s2) = 2%nat
  /\ (v_now v4 - v_now v3 < 5000)%Z
  /\ proctoring_logs (raise running candidate v4 (raise running candidate v3 s2))
     = proctoring_logs s2
  /\ onViolation (raise running candidate v4 (raise running candidate v3 s2))
     = onViolation s2.
Proof.
  intros v0 v1 v2 v3 v4 s0 s1 s2.
  split; [vm_compute; reflexivity|]. split; [vm_compute; reflexivity|].
  split; [vm_compute; reflexivity|]. split; [vm_compute; reflexivity|].
  split; [vm_compute; reflexivity|]. split; [vm_compute; reflexivity|].
  split; [vm_compute; reflexivity|]. split; vm_compute; reflexivity.
Qed.

(** Two mismatches two seconds apart, in a fresh component: one row, one
    call. *)
Lemma C2_cooldown_suppresses_witness :
  let first := mkViolation 1700000000000 "face_mismatch" critical
                 (details_distance 0.75%float) in
  let second := mkViolation 1700000002000 "face_mismatch" critical
                  (details_distance 0.75%float) in
  length (proctoring_logs (raise running candidate second
                             (raise running candidate first initial))) = 1%nat
  /\ onViolation (raise running candidate second
                    (raise running candidate first initial)) = [critical].
Proof.
  intros first second.
  destruct (C2_cooldown_suppresses candidate running initial first [] second)
    as (_ & _ & _ & Hlogs & _ & Hcalls & _).
  - vm_compute. discriminate.
  - vm_compute. reflexivity.
  - rewrite Hlogs, Hcalls. split; reflexivity.
Defined.

(** The first tick after the models are loaded, with nobody in the frame. *)
Lemma C3_status_follows_face_count_witness :
  verificationStatus
    (step candidate (interval_fires 1700000000000 (detections []))
          (run candidate [models_loaded] initial)) = no_face.
Proof.
  destruct (C3_status_follows_face_count candidate [models_loaded]
              1700000000000 []) as [_ H].
  - eexists. reflexivity.
  - apply H. reflexivity.
Defined.

(** C4. In the session [nobody_then_candidate] the second tick finds the
    registered face at distance 0, below the threshold: the status becomes
    [verified], and the violation count, 1 since the first tick, is still 1.
    The render the interval calls saw a count of 0, so the reset it guards
    with [violationCount > 0] is never taken. *)
Theorem C4_verified_tick_keeps_the_count :
  euclideanDistance (registeredEmbedding candidate)
                    [0.5%float; 0.25%float; 0.125%float] = Some 0%float
  /\ (0 <? threshold)%float = true
  /\ verificationStatus (run candidate nobody_then_candidate initial) = verified
  /\ violationCount (run candidate nobody_then_candidate initial) = 1%Z.
Proof. repeat split; vm_compute; reflexivity. Qed.

End ProctorSessions.

(* --------------------------------------------------------------------- *)
(** ** The question screen                                                *)
(* --------------------------------------------------------------------- *)

Section QuestionScreenFacts.

Import QuestionScreen.
Local Open Scope Z_scope.

(** The state the candidate of [last_second] is in: the first question, one
    second left, nothing selected, monitoring not valid. *)
Lemma last_second_state :
  Store.currentQuestionIndex (store last_second) = 0
  /\ Store.timeRemaining (store last_second) = 1
  /\ selectedAnswer last_second = ""
  /\ isMonitoringValid last_second = false
  /\ loading last_second = false
  /\ navigated last_second = None.
Proof. repeat split; vm_compute; reflexivity. Qed.

(** C6, as stated, fails: with nothing selected the last tick of the
    countdown moves the screen to the second question. *)
Lemma C6_countdown_advances_without_selection :
  selectedAnswer last_second = ""
  /\ Store.currentQuestionIndex (store last_second) = 0
  /\ Store.currentQuestionIndex (store (step timeout_fires last_second)) = 1
  /\ advanced last_second (step timeout_fires last_second).
Proof.
  split; [vm_compute; reflexivity|]. split; [vm_compute; reflexivity|].
  split; [vm_compute; reflexivity|]. left. vm_compute. discriminate.
Qed.

Lemma not_advanced (s s' : State) :
  Store.currentQuestionIndex (store s') = Store.currentQuestionIndex (store s) ->
  (navigated s' = navigated s \/ navigated s' = Some "/dashboard") ->
  ~ advanced s s'.
Proof.
  intros Hi Hn [H|[H1 H2]]; [congruence|].
  destruct Hn as [Hn|Hn]; congruence.
Qed.

(** An event that leaves the index and the route alone, or leaves for the
    dashboard, has not moved the screen on. *)
Ltac stays_put H :=
  exfalso; revert H; apply not_advanced; simpl; now auto.

(** [handleNextQuestion] moves on only through [advance]; called with a
    selection on a question that is not there, it stops before. *)
Lemma handleNextQuestion_selected_answer (s : State) :
  selectedAnswer (handleNextQuestion s) = selectedAnswer s
  \/ selectedAnswer (handleNextQuestion s) = "".
Proof.
  unfold handleNextQuestion, advance.
  case_decide; [|destruct (currentQuestion s)]; simpl;
    try (destruct (_ <? _); simpl); auto.
Qed.

(** C6, amended. On the mounted question screen:
    - the screen moves on (to the next question or to the completion page)
      only by a click on Next with an option selected, or by the countdown
      running out of its last second;
    - the countdown running out does move it on, whether or not an option
      is selected, save in one case: an option is selected and the store has
      no question at the current index; reading the [id] of that question
      throws, and the screen stays where it is;
    - while monitoring is not valid no event selects an option: the
      selection stays, or is cleared by moving on;
    - a critical proctoring violation makes monitoring not valid and pauses
      the assessment. *)
Theorem C6_advance_and_select_guards (e : Event) (s : State) :
  (advanced s (step e s) ->
     (e = click_next /\ selectedAnswer s <> "" /\ loading s = false)
     \/ (e = timeout_fires /\ Store.timeRemaining (store s) = 1))
  /\ (navigated s = None -> Store.timeRemaining (store s) = 1 ->
      (advanced s (step timeout_fires s)
       <-> selectedAnswer s = "" \/ is_Some (currentQuestion s)))
  /\ (isMonitoringValid s = false ->
      (forall o, step (click_option o) s = s)
      /\ (forall o, selectedAnswer (handleAnswerSelect o s) = selectedAnswer s)
      /\ (selectedAnswer (step e s) = selectedAnswer s
          \/ selectedAnswer (step e s) = ""))
  /\ (navigated s = None ->
      forall seen,
        isMonitoringValid (step (proctor_violation seen Proctor.critical) s) = false
        /\ assessmentPaused (step (proctor_violation seen Proctor.critical) s) = true).
Proof.
  split; [|split; [|split]].
  - intros Hadv. unfold step in Hadv.
    destruct (navigated s) eqn:Hnav; [stays_put Hadv|].
    destruct e; try stays_put Hadv.
    + destruct generated; stays_put Hadv.
    + right. split; [reflexivity|].
      destruct (Z.gtb_spec (Store.timeRemaining (store s)) 0) as [Hpos|Hpos];
        [|stays_put Hadv].
      unfold timeRemaining_effect in Hadv. simpl in Hadv.
      destruct (Z.gtb_spec (Store.timeRemaining (store s) - 1) 0) as [Hpos'|Hpos'];
        [stays_put Hadv|lia].
    + destruct (option_enabled option s); [|stays_put Hadv].
      unfold handleAnswerSelect in Hadv.
      destruct (negb (isMonitoringValid s)); stays_put Hadv.
    + left. split; [reflexivity|].
      destruct (next_enabled s) eqn:Hen; [|stays_put Hadv].
      unfold next_enabled in Hen. apply andb_true_iff in Hen as [Hl Hsel].
      apply negb_true_iff in Hl, Hsel. apply bool_decide_eq_false in Hsel.
      now split.
    + destruct (negb (loading s) && assessmentPaused s); stays_put Hadv.
    + unfold handleProctorViolation in Hadv.
      destruct severity; [case_decide|]; stays_put Hadv.
    + unfold handleViolation in Hadv. case_decide; stays_put Hadv.
    + case_decide; stays_put Hadv.
  - intros Hnav Htime. unfold step. rewrite Hnav, Htime. simpl.
    unfold timeRemaining_effect. simpl.
    unfold handleNextQuestion. simpl.
    change (currentQuestion (withStore (Store.setTimeRemaining (1 - 1)) s))
      with (currentQuestion s).
    case_decide as Hsel.
    + split; [now left|]. intros _. unfold advance. simpl.
      destruct (_ <? _); simpl.
      * left. simpl. lia.
      * right. now split.
    + destruct (currentQuestion s) as [q|].
      * split; [now right|]. intros _. unfold advance. simpl.
        destruct (_ <? _); simpl.
        -- left. simpl. lia.
        -- right. now split.
      * split.
        -- intros Hadv. stays_put Hadv.
        -- intros [Hs|[q Hq]]; [contradiction|discriminate].
  - intros Hvalid.
    assert (forall o, step (click_option o) s = s) as Hclick.
    { intros o. unfold step. destruct (navigated s); [reflexivity|].
      unfold option_enabled. rewrite Hvalid.
      now rewrite andb_false_r. }
    split; [exact Hclick|]. split.
    { intros o. unfold handleAnswerSelect. now rewrite Hvalid. }
    destruct e; try (rewrite Hclick; now left);
      unfold step; destruct (navigated s); try (now left); simpl.
    + destruct generated; now left.
    + destruct (_ >? 0); [|now left].
      unfold timeRemaining_effect. simpl. destruct (_ >? 0); [now left|].
      apply (handleNextQuestion_selected_answer
               (withStore (Store.setTimeRemaining (Store.timeRemaining (store s) - 1)) s)).
    + destruct (next_enabled s); [|now left].
      apply handleNextQuestion_selected_answer.
    + destruct (negb (loading s) && assessmentPaused s); now left.
    + unfold handleProctorViolation. destruct severity; [case_decide|]; now left.
    + unfold handleViolation. case_decide; now left.
    + case_decide; now left.
  - intros Hnav seen. unfold step. rewrite Hnav. split; reflexivity.
Qed.

(** The guard of the option buttons is [isMonitoringValid] alone: after a
    critical violation has paused the assessment, a frame with one face
    reported by the face detector makes monitoring valid again; the option
    buttons are then enabled behind the pause dialog, and activating one
    selects it, the pause still on. *)
Lemma selection_while_paused :
  let s := run [assessment_created "assessment-1";
                questions_generated (Some two_questions);
                proctor_violation [] Proctor.critical;
                validity_change true;
                click_option "A reducer"] (mount true uploaded) in
  assessmentPaused s = true /\ selectedAnswer s = "A reducer".
Proof. split; vm_compute; reflexivity. Qed.

End QuestionScreenFacts.

(* --------------------------------------------------------------------- *)
(** ** Parse failures in the serverless handlers                          *)
(* --------------------------------------------------------------------- *)

Section ServerlessFacts.

Import Serverless.

(** C7, as stated, fails: it is not so that a parse failure never gives an
    error result.  In [generate-questions] the [catch] of the parse throws
    ['Invalid AI response format'], which the handler answers with status
    500. *)
Lemma C7_generate_questions_surfaces_parse_failure :
  ~ (forall (JSON_parse : string -> option JSON)
            (match_fence : string -> option string)
            (insert_questions : JSON -> Try Response) (content : string),
       parse_fenced JSON_parse match_fence content = None ->
       status (generate_questions JSON_parse match_fence insert_questions content)
       <> 500%nat).
Proof.
  intros H.
  apply (H (fun _ => None) (fun _ => None) (fun v => returned (mkResponse 200 v))
           "Sorry, I cannot write questions for this project.");
    reflexivity.
Qed.

Section Handlers.

Variable JSON_parse : string -> option JSON.
Variable match_fence : string -> option string.
Variable match_braces : string -> option string.
Variable insert_questions : JSON -> Try Response.

(** C7, amended. When the parse of the model's text fails (for the
    reporting evaluation handler a failed brace match counts as one):
    - the storing evaluation handler takes the default plagiarism payload and
      answers 200 with it, unless the database update then reports an error,
      which it answers with status 500;
    - the reporting evaluation handler takes the default analysis and answers
      200 with it;
    - the question generator answers status 500 with the message
      ['Invalid AI response format']. *)
Theorem C7_parse_failure_outcomes (content : string) :
  parse_fenced JSON_parse match_fence content = None ->
  match match_braces content with
  | Some m => JSON_parse m = None
  | None => True
  end ->
  plagiarismData JSON_parse match_fence content = default_plagiarismData
  /\ (forall totalScore,
        evaluate_and_store JSON_parse match_fence totalScore content None
        = {| status := 200;
             body := JObject [("totalScore", number totalScore);
                              ("plagiarismScore", JNumber 85%float);
                              ("report", default_plagiarismData)] |})
  /\ (forall totalScore m,
        evaluate_and_store JSON_parse match_fence totalScore content (Some m)
        = {| status := 500; body := JObject [("error", JString m)] |})
  /\ analysis JSON_parse match_braces content = default_analysis
  /\ (forall assessmentId questions,
        exists fields,
          evaluate_report JSON_parse match_braces assessmentId questions content
          = {| status := 200; body := JObject fields |}
          /\ Forall (fun k => member (JObject fields) k = member default_analysis k)
                    analysis_keys)
  /\ generate_questions JSON_parse match_fence insert_questions content
     = {| status := 500;
          body := JObject [("error", JString "Invalid AI response format")] |}.
Proof.
  intros Hfenced Hbraces.
  assert (plagiarismData JSON_parse match_fence content = default_plagiarismData)
    as Hdata by (unfold plagiarismData; now rewrite Hfenced).
  assert (analysis JSON_parse match_braces content = default_analysis) as Ha.
  { unfold analysis. destruct (match_braces content) as [m|]; [|reflexivity].
    now rewrite Hbraces. }
  split; [exact Hdata|].
  unfold evaluate_and_store, generate_questions, questionsData, evaluate_report.
  rewrite Hdata, Hfenced, Ha. repeat split.
  intros assessmentId questions. eexists. split; [reflexivity|].
  repeat constructor.
Qed.

End Handlers.

End ServerlessFacts.

Section ServerlessExamples.

Import Serverless.

(** A model that answers in prose: no fence, no braces, no JSON. *)
Lemma C7_parse_failure_outcomes_witness :
  let content := "Sorry, I cannot write questions for this project." in
  let JSON_parse : string -> option JSON := fun _ => None in
  let no_match : string -> option string := fun _ => None in
  status (evaluate_and_store JSON_parse no_match 70%float content None) = 200%nat
  /\ status (generate_questions JSON_parse no_match
               (fun v => returned (mkResponse 200 v)) content) = 500%nat.
Proof.
  intros content JSON_parse no_match.
  destruct (C7_parse_failure_outcomes JSON_parse no_match no_match
              (fun v => returned (mkResponse 200 v)) content)
    as (_ & Hok & _ & _ & _ & Hgen).
  - reflexivity.
  - simpl. exact I.
  - rewrite Hok, Hgen. split; reflexivity.
Defined.

End ServerlessExamples.

(* ===================================================================== *)
(** * Further properties                                                  *)
(* ===================================================================== *)

(* --------------------------------------------------------------------- *)
(** ** Scoring: the extremes                                              *)
(* --------------------------------------------------------------------- *)

Section ScoringExtremes.

Import Js Scoring.

(** Two unequal numbers that a computation tells apart are not equal. *)
Ltac float_absurd H :=
  exfalso;
  apply (f_equal (fun x => PrimFloat.eqb x 100 || PrimFloat.eqb x 0)) in H;
  vm_compute in H; discriminate H.

Lemma percentage_extremes (c n : nat) :
  (1 <= n <= 10)%nat -> (c <= n)%nat ->
  (percentage c n = 100%float <-> c = n)
  /\ (percentage c n = 0%float <-> c = 0%nat).
Proof.
  intros Hn Hc.
  do 11 (destruct n as [|n]; [try lia; clear Hn;
    do 11 (destruct c as [|c];
      [try lia; split; split; intros H;
         try reflexivity; try discriminate H; try float_absurd H;
         vm_compute; reflexivity|]); lia|]).
  lia.
Qed.

(** For one to ten answers the score is 100 exactly when every answer is
    correct, and 0 exactly when none is. *)
Theorem score_extremes (answers : list Answer) :
  (1 <= length answers <= 10)%nat ->
  (score answers = 100%float <-> correctCount answers = length answers)
  /\ (score answers = 0%float <-> correctCount answers = 0%nat)
  /\ (totalScore answers = 100%float <-> correctAnswers answers = length answers)
  /\ (totalScore answers = 0%float <-> correctAnswers answers = 0%nat).
Proof.
  intros Hn. pose proof (correctCount_le_length answers) as Hc.
  destruct (percentage_extremes (correctCount answers) (length answers) Hn Hc)
    as [H100 H0].
  rewrite totalScore_score, correctAnswers_correctCount. unfold score.
  repeat split; try apply H100; try apply H0.
Qed.

Lemma score_extremes_witness :
  score Sessions.two_of_three = 100%float <-> correctCount Sessions.two_of_three = 3%nat.
Proof.
  destruct (score_extremes Sessions.two_of_three) as [H _].
  - vm_compute. lia.
  - exact H.
Defined.

Lemma score_up_to_ten_questions_witness :
  totalScore Sessions.two_of_three = 67%float.
Proof.
  destruct (score_up_to_ten_questions Sessions.two_of_three) as [H _].
  - vm_compute. lia.
  - rewrite H. vm_compute. reflexivity.
Defined.

End ScoringExtremes.

(* --------------------------------------------------------------------- *)
(** ** The store: how the setters compose                                 *)
(* --------------------------------------------------------------------- *)

Section StoreComposition.

Import Store.
Local Open Scope Z_scope.

Lemma store_eq (s t : AssessmentState) :
  currentAssessmentId s = currentAssessmentId t ->
  uploadedFiles s = uploadedFiles t ->
  permissions s = permissions t ->
  faceEmbedding s = faceEmbedding t ->
  questions s = questions t ->
  currentQuestionIndex s = currentQuestionIndex t ->
  timeRemaining s = timeRemaining t ->
  isAssessmentComplete s = isAssessmentComplete t ->
  s = t.
Proof. destruct s, t; simpl; intros; subst; reflexivity. Qed.

(** Answering the same question again replaces the earlier answer: the store
    is as if only the second answer had been given. *)
Theorem setUserAnswer_overwrites (s : AssessmentState) (i : Z) (a b : string) :
  setUserAnswer i b (setUserAnswer i a s) = setUserAnswer i b s.
Proof.
  apply store_eq; try reflexivity.
  apply list_eq. intros j. rewrite !setUserAnswer_lookup.
  destruct (questions s !! j) as [q|]; simpl; [|reflexivity].
  case_decide; reflexivity.
Qed.

(** Answers to different questions do not interfere: they can be given in
    either order. *)
Theorem setUserAnswer_commutes (s : AssessmentState) (i j : Z) (a b : string) :
  i <> j ->
  setUserAnswer i a (setUserAnswer j b s) = setUserAnswer j b (setUserAnswer i a s).
Proof.
  intros Hij. apply store_eq; try reflexivity.
  apply list_eq. intros k. rewrite !setUserAnswer_lookup.
  destruct (questions s !! k) as [q|]; simpl; [|reflexivity].
  repeat case_decide; try reflexivity. lia.
Qed.

Lemma setUserAnswer_commutes_witness :
  setUserAnswer 0 "A" (setUserAnswer 1 "B" initial)
  = setUserAnswer 1 "B" (setUserAnswer 0 "A" initial).
Proof. apply (setUserAnswer_commutes initial 0 1 "A" "B"). lia. Defined.

(** A reset forgets whatever was written before it, except permissions: after
    any [set] that leaves the permissions alone, the reset gives the same
    store as without it; and a second reset changes nothing. *)
Theorem resetAssessment_absorbs (p : Partial) (s : AssessmentState) :
  set_permissions p = None ->
  resetAssessment (set p s) = resetAssessment s
  /\ resetAssessment (resetAssessment s) = resetAssessment s.
Proof.
  intros Hp. split; [|reflexivity].
  rewrite !resetAssessment_spec. simpl. now rewrite Hp.
Qed.

Lemma resetAssessment_absorbs_witness :
  resetAssessment (setTimeRemaining 7 camera_granted)
  = resetAssessment camera_granted.
Proof.
  unfold setTimeRemaining.
  apply (resetAssessment_absorbs
           {| set_currentAssessmentId := None; set_uploadedFiles := None;
              set_permissions := None; set_faceEmbedding := None;
              set_questions := None; set_currentQuestionIndex := None;
              set_timeRemaining := Some 7; set_isAssessmentComplete := None |}
           camera_granted).
  reflexivity.
Defined.

End StoreComposition.

(* --------------------------------------------------------------------- *)
(** ** Upload: what is stored, and when nothing is                        *)
(* --------------------------------------------------------------------- *)

Section UploadComposition.

Import Js Upload UploadSpec.

Lemma extract_readable (entries : list (string * ZipEntry))
    (acc : list Store.UploadedFile) :
  Forall (fun entry => ~ unreadable entry) entries ->
  (extract entries acc).2 = Some (acc ++ omap stored entries).
Proof.
  revert acc; induction entries as [|[path e] rest IH]; intros acc Hall; simpl.
  - now rewrite app_nil_r.
  - apply Forall_cons in Hall as [He Hrest].
    destruct (kept path e) eqn:Hkept.
    + destruct (async_text e) as [text|] eqn:Htext.
      * specialize (IH (acc ++ [{| Store.name := path; Store.path := path;
                                   Store.size := String.length text;
                                   Store.content := Some (substring0 500 text) |}])
                       Hrest).
        destruct (extract rest _) as [tr r]. simpl in *.
        now rewrite IH, <- app_assoc.
      * exfalso. apply He. now split.
    + now apply IH.
Qed.

Lemma extract_unreadable (entries : list (string * ZipEntry))
    (acc : list Store.UploadedFile) :
  Exists unreadable entries -> (extract entries acc).2 = None.
Proof.
  revert acc; induction entries as [|[path e] rest IH]; intros acc Hex; simpl.
  - now apply Exists_nil in Hex.
  - apply Exists_cons in Hex.
    destruct (kept path e) eqn:Hkept.
    + destruct (async_text e) as [text|] eqn:Htext; [|reflexivity].
      destruct Hex as [[_ Hun]|Hex]; [simpl in Hun; congruence|].
      specialize (IH (acc ++ [{| Store.name := path; Store.path := path;
                                 Store.size := String.length text;
                                 Store.content := Some (substring0 500 text) |}])
                     Hex).
      now destruct (extract rest _) as [tr r].
    + destruct Hex as [[Hk _]|Hex]; [simpl in Hk; congruence|]. now apply IH.
Qed.

(** An archive all of whose kept entries can be read replaces the uploaded
    files by one file per kept entry, in the archive's order, whatever was
    uploaded before. *)
Theorem upload_stores_kept_entries (file : File) (s : Store.AssessmentState)
    (contents : list (string * ZipEntry)) :
  endsWith (file_name file) ".zip" = true ->
  loadAsync file = Some contents ->
  Forall (fun entry => ~ unreadable entry) contents ->
  Store.uploadedFiles (handleFileUpload file s).2 = omap stored contents
  /\ (handleFileUpload file s).2 = Store.setUploadedFiles (omap stored contents) s.
Proof.
  intros Hname Hload Hall. unfold handleFileUpload. rewrite Hname, Hload. simpl.
  pose proof (extract_readable contents [] Hall) as Hex.
  destruct (extract contents []) as [tr r]. simpl in Hex. subst r.
  now split.
Qed.

Lemma upload_stores_kept_entries_witness :
  Store.uploadedFiles (handleFileUpload project_zip QuestionScreen.uploaded).2
  = [{| Store.name := "src/App.tsx"; Store.path := "src/App.tsx";
        Store.size := 19; Store.content := Some "export default App;" |}].
Proof.
  destruct (upload_stores_kept_entries project_zip QuestionScreen.uploaded
              [("src/", mkEntry true (Some ""));
               ("src/App.tsx", mkEntry false (Some "export default App;"));
               ("node_modules/react/index.js", mkEntry false (Some "module.exports = {};"));
               (".git/config", mkEntry false (Some "[core]"))]) as [H _].
  - vm_compute. reflexivity.
  - reflexivity.
  - repeat constructor; intros [Hk Hr]; vm_compute in Hk, Hr; discriminate.
  - rewrite H. vm_compute. reflexivity.
Defined.

(** One kept entry that cannot be read fails the whole upload: the store is
    left as it was, the files read before it are dropped, and the last thing
    shown is the extraction error. *)
Theorem upload_fails_as_a_whole (file : File) (s : Store.AssessmentState)
    (contents : list (string * ZipEntry)) :
  endsWith (file_name file) ".zip" = true ->
  loadAsync file = Some contents ->
  Exists unreadable contents ->
  (handleFileUpload file s).2 = s
  /\ last (handleFileUpload file s).1 = Some (toast_error "Failed to extract ZIP file")
  /\ forall msg, toast_success msg ∉ (handleFileUpload file s).1.
Proof.
  intros Hname Hload Hex. unfold handleFileUpload. rewrite Hname, Hload. simpl.
  pose proof (extract_unreadable contents [] Hex) as Hnone.
  pose proof (fun msg => extract_no_success contents [] msg) as Hno.
  destruct (extract contents []) as [tr r]. simpl in *. subst r. simpl.
  split; [reflexivity|]. split.
  - change (zip_loadAsync (file_name file) :: tr ++ [toast_error "Failed to extract ZIP file"])
      with ((zip_loadAsync (file_name file) :: tr) ++ [toast_error "Failed to extract ZIP file"]).
    apply last_snoc.
  - intros msg Hin. apply elem_of_cons in Hin as [Hin|Hin]; [discriminate|].
    apply elem_of_app in Hin as [Hin|Hin]; [now apply (Hno msg)|].
    apply list_elem_of_singleton in Hin. discriminate.
Qed.

Lemma upload_fails_as_a_whole_witness :
  (handleFileUpload damaged_zip QuestionScreen.uploaded).2 = QuestionScreen.uploaded.
Proof.
  destruct (upload_fails_as_a_whole damaged_zip QuestionScreen.uploaded
              [("src/a.ts", mkEntry false (Some "export const a = 1;"));
               ("src/b.ts", mkEntry false None);
               ("src/c.ts", mkEntry false (Some "export const c = 3;"))]) as [H _].
  - vm_compute. reflexivity.
  - reflexivity.
  - right. left. split; vm_compute; reflexivity.
  - exact H.
Defined.

End UploadComposition.

(* --------------------------------------------------------------------- *)
(** ** The proctoring loop over a run                                     *)
(* --------------------------------------------------------------------- *)

Section ProctorRuns.

Import Proctor ProctorSpec.
Local Open Scope Z_scope.

Variable env : Env.

Lemma handleViolation_effect (r : Render) (now : Z) (eventType : string)
    (sev : Severity) (det : Details) (s : State) (v : VerificationStatus) :
  let s' := setVerificationStatus v (handleViolation r env now eventType sev det s) in
  quiet s s' \/ one_call now s s'.
Proof.
  intros s'. subst s'.
  destruct (Z.lt_ge_cases (now - lastViolationRef s) 5000) as [H|H].
  - left. rewrite handleViolation_suppressed by exact H. now repeat split.
  - right. destruct (handleViolation_passed env r now eventType sev det s H)
      as (Hlast & Hlogs & Hcalls & _).
    split; [exact H|]. simpl. split; [exact Hlast|]. split; [now exists sev|].
    rewrite Hlogs, length_app. unfold rows. destruct (auth_user env); simpl; lia.
Qed.

Lemma step_effect (e : Event) (s : State) :
  quiet s (step env e s)
  \/ exists now frame, e = interval_fires now frame /\ one_call now s (step env e s).
Proof.
  destruct e as [| |now frame]; simpl.
  - left. destruct (modelsLoaded s); now repeat split.
  - left. now repeat split.
  - destruct (detectionIntervalRef s) as [r|]; [|left; now repeat split].
    assert (quiet s (verifyFace r env now frame s)
            \/ one_call now s (verifyFace r env now frame s)) as [H|H];
      [|now left|right; now exists now, frame].
    unfold verifyFace. destruct (r_modelsLoaded r); simpl; [|left; now repeat split].
    destruct frame as [| |ds]; [left; now repeat split..|].
    repeat case_decide; [apply handleViolation_effect..|].
    destruct (head ds) as [d|]; [|left; now repeat split].
    destruct (euclideanDistance _ d) as [dist|]; [|left; now repeat split].
    destruct (dist <? threshold)%float; [|apply handleViolation_effect].
    left. destruct (r_violationCount r >? 0); now repeat split.
Qed.

Lemma tick_times_snoc (es : list Event) (e : Event) :
  tick_times (es ++ [e]) = tick_times es ++ tick_times [e].
Proof. unfold tick_times. apply omap_app. Qed.

(** Over a run whose ticks all read a clock in a window of [D]
    milliseconds: no call, or the calls are spaced five seconds apart inside
    the window. *)
Lemma run_calls (es : list Event) (s : State) (t0 D : Z) :
  Forall (fun t => t0 <= t <= t0 + D) (tick_times es) ->
  let s' := run env es s in
  let k := Z.of_nat (length (onViolation s')) - Z.of_nat (length (onViolation s)) in
  (length (proctoring_logs s') - length (proctoring_logs s)
   <= length (onViolation s') - length (onViolation s))%nat
  /\ (length (proctoring_logs s) <= length (proctoring_logs s'))%nat
  /\ ((k = 0 /\ lastViolationRef s' = lastViolationRef s)
      \/ (1 <= k /\ t0 + 5000 * (k - 1) <= lastViolationRef s' <= t0 + D)).
Proof.
  induction es as [|e es IH] using rev_ind; intros Hwin; simpl.
  - split; [lia|]. split; [lia|]. left. split; [lia|reflexivity].
  - rewrite tick_times_snoc in Hwin. apply Forall_app in Hwin as [Hes He].
    specialize (IH Hes). simpl in IH. rewrite run_snoc.
    set (s1 := run env es s) in *.
    destruct IH as (Hrows & Hmono & Hk).
    destruct (step_effect e s1) as [(Hc & Hl & Hr)|(now & frame & -> & Hone)].
    + rewrite Hc, Hl, Hr. now repeat split.
    + simpl in He. rewrite Forall_singleton in He.
      set (s2 := step env (interval_fires now frame) s1) in *.
      destruct Hone as (Hcool & Hlast & [sev Hsev] & Hlen).
      rewrite Hsev, length_app, Hlast.
      change (length [sev]) with 1%nat.
      assert (0 <= Z.of_nat (length (onViolation s1))
                   - Z.of_nat (length (onViolation s))) by lia.
      split; [lia|]. split; [lia|].
      right. destruct Hk as [[Hk0 Hl0]|[Hk1 Hl1]]; lia.
Qed.

(** Over ticks whose clocks lie in a window of [D] milliseconds the callback
    is called at most [1 + D / 5000] times, and no more rows are inserted
    than calls are made. *)
Theorem dispatch_rate_limit (es : list Event) (s : State) (t0 D : Z) :
  Forall (fun t => t0 <= t <= t0 + D) (tick_times es) ->
  0 <= D ->
  let s' := run env es s in
  Z.of_nat (length (onViolation s'))
    <= Z.of_nat (length (onViolation s)) + 1 + D / 5000
  /\ (length (proctoring_logs s') - length (proctoring_logs s)
      <= length (onViolation s') - length (onViolation s))%nat.
Proof.
  intros Hwin HD s'.
  destruct (run_calls es s t0 D Hwin) as (Hrows & _ & Hk). fold s' in Hrows, Hk.
  split; [|exact Hrows].
  assert (0 <= D / 5000) by (apply Z.div_pos; lia).
  destruct Hk as [[Hk _]|[Hk Hl]]; [lia|].
  enough (Z.of_nat (length (onViolation s')) - Z.of_nat (length (onViolation s)) - 1
          <= D / 5000) by lia.
  apply Z.div_le_lower_bound; lia.
Qed.

(** *** The violation count *)

Lemma step_flag (e : Event) (s : State) :
  loop_invariant s ->
  (violationCount (step env e s) = violationCount s
   /\ onViolation (step env e s) = onViolation s)
  \/ (violationCount (step env e s) = 1
      /\ exists sev, onViolation (step env e s) = onViolation s ++ [sev]).
Proof.
  intros Hinv. destruct e as [| |now frame]; simpl.
  - left. now destruct (modelsLoaded s).
  - now left.
  - destruct Hinv as [(_ & Hi & _)|(_ & Hi)]; rewrite Hi; [now left|].
    unfold verifyFace. simpl.
    assert (forall ev sev det v,
      let s' := setVerificationStatus v
                  (handleViolation running env now ev sev det s) in
      (violationCount s' = violationCount s /\ onViolation s' = onViolation s)
      \/ (violationCount s' = 1
          /\ exists sev', onViolation s' = onViolation s ++ [sev'])) as Hh.
    { intros ev sev det v.
      destruct (Z.lt_ge_cases (now - lastViolationRef s) 5000) as [H|H].
      - left. now rewrite handleViolation_suppressed.
      - right. destruct (handleViolation_passed env running now ev sev det s H)
          as (_ & _ & Hcalls & Hc & _). simpl. rewrite Hc, Hcalls.
        split; [reflexivity|now exists sev]. }
    destruct frame as [| |ds]; [now left..|].
    repeat case_decide; [apply Hh..|].
    destruct (head ds) as [d|]; [|now left].
    destruct (euclideanDistance _ d) as [dist|]; [|now left].
    destruct (dist <? threshold)%float; [now left|apply Hh].
Qed.

Lemma run_app (es es' : list Event) (s : State) :
  run env (es ++ es') s = run env es' (run env es s).
Proof. unfold run. apply foldl_app. Qed.

Lemma run_invariant_from (es : list Event) (s : State) :
  loop_invariant s -> loop_invariant (run env es s).
Proof.
  intros Hs. induction es as [|e es IH] using rev_ind; [exact Hs|].
  rewrite run_snoc. now apply step_invariant.
Qed.

Lemma run_flag (es : list Event) (s : State) :
  loop_invariant s ->
  flag s -> flag (run env es s) /\ (onViolation s <> [] -> onViolation (run env es s) <> []).
Proof.
  intros Hinv Hs. induction es as [|e es IH] using rev_ind; [now split|].
  rewrite run_snoc. destruct IH as [IH Hgrow].
  destruct (step_flag e (run env es s) (run_invariant_from es s Hinv))
    as [[Hc Hcalls]|[Hc [sev Hcalls]]]; unfold flag; rewrite Hc, Hcalls.
  - now split.
  - split; [right; split; [reflexivity|]|intros _];
      intros Habs; now apply app_eq_nil in Habs as [_ ?].
Qed.

(** The violation count the component shows is a flag: it is 0 as long as
    the callback has not been called and 1 once it has, however often; it
    never counts a second violation and never goes back to 0. *)
Theorem violationCount_is_a_flag (es es' : list Event) :
  flag (run env es initial)
  /\ (violationCount (run env es initial) = 1 ->
      violationCount (run env (es ++ es') initial) = 1).
Proof.
  assert (loop_invariant initial) as Hinit by (left; now repeat split).
  assert (flag initial) as Hflag by (left; now split).
  destruct (run_flag es initial Hinit Hflag) as [Hes _].
  split; [exact Hes|]. intros H1. rewrite run_app.
  destruct (run_flag es' (run env es initial) (run_invariant env es) Hes)
    as [[[H0 Hnil]|[H _]] Hgrow]; [|exact H].
  destruct Hes as [[Hzero _]|[_ Hcalls]]; [lia|]. now apply Hgrow in Hcalls.
Qed.

(** *** Ticks that say nothing *)

(** A tick without a video element, with a detector that fails, or with one
    face whose descriptor has another length than the registered embedding
    (the distance function throws) leaves the whole state as it was: the
    status is not updated and no violation is raised. *)
Theorem tick_without_verdict (s : State) (now : Z) :
  step env (interval_fires now no_video) s = s
  /\ step env (interval_fires now detection_fails) s = s
  /\ forall d : list float,
       length d <> length (registeredEmbedding env) ->
       step env (interval_fires now (detections [d])) s = s.
Proof.
  unfold step. destruct (detectionIntervalRef s) as [r|]; [|now repeat split].
  unfold verifyFace. destruct (r_modelsLoaded r); simpl; [|now repeat split].
  repeat split. intros d Hd. unfold euclideanDistance.
  case_decide; [congruence|reflexivity].
Qed.

(** *** The rows *)

Lemma step_rows (e : Event) (s : State) :
  loop_invariant s ->
  Forall (row_of env) (proctoring_logs s) ->
  Forall (row_of env) (proctoring_logs (step env e s)).
Proof.
  intros Hinv Hrows. destruct e as [| |now frame]; simpl.
  - now destruct (modelsLoaded s).
  - exact Hrows.
  - destruct (detectionIntervalRef s) as [r|]; [|exact Hrows].
    unfold verifyFace. destruct (r_modelsLoaded r); simpl; [|exact Hrows].
    assert (forall ev sev det v, raised ev sev ->
      Forall (row_of env)
        (proctoring_logs (setVerificationStatus v
                            (handleViolation r env now ev sev det s)))) as Hh.
    { intros ev sev det v Hraised.
      destruct (Z.lt_ge_cases (now - lastViolationRef s) 5000) as [H|H].
      - now rewrite handleViolation_suppressed.
      - destruct (handleViolation_passed env r now ev sev det s H)
          as (_ & Hlogs & _). simpl. rewrite Hlogs.
        apply Forall_app. split; [exact Hrows|]. unfold rows.
        destruct (auth_user env) as [user|] eqn:Huser; constructor; [|constructor].
        now repeat split. }
    destruct frame as [| |ds]; [exact Hrows..|].
    repeat case_decide.
    + apply Hh. now left.
    + apply Hh. right. now left.
    + destruct (head ds) as [d|]; [|exact Hrows].
      destruct (euclideanDistance _ d) as [dist|]; [|exact Hrows].
      destruct (dist <? threshold)%float.
      * now destruct (r_violationCount r >? 0).
      * apply Hh. right. now right.
Qed.

(** Every row the loop inserts carries the assessment of the component and
    the signed-in user, and its severity is the one of its event type:
    warning for no face, critical for several faces or a mismatch.  With
    nobody signed in no row is inserted at all. *)
Theorem rows_are_well_formed (es : list Event) :
  Forall (row_of env) (proctoring_logs (run env es initial))
  /\ (auth_user env = None -> proctoring_logs (run env es initial) = []).
Proof.
  assert (Forall (row_of env) (proctoring_logs (run env es initial))) as Hrows.
  { induction es as [|e es IH] using rev_ind; [constructor|].
    rewrite run_snoc. apply step_rows; [apply run_invariant|exact IH]. }
  split; [exact Hrows|]. intros Hnone.
  destruct (proctoring_logs (run env es initial)) as [|row l]; [reflexivity|].
  apply Forall_cons in Hrows as [(_ & Huser & _) _]. congruence.
Qed.

End ProctorRuns.

Section ProctorRunExamples.

Import Proctor ProctorSpec.
Local Open Scope Z_scope.

(** Ten seconds with nobody in the frame, polled every two seconds: at most
    two calls. *)
Lemma dispatch_rate_limit_witness :
  (length (onViolation (run candidate nobody_for_ten_seconds
                            (run candidate [models_loaded] initial))) <= 2)%nat.
Proof.
  destruct (dispatch_rate_limit candidate nobody_for_ten_seconds
              (run candidate [models_loaded] initial) 1700000000000 8000)
    as [H _].
  - unfold nobody_for_ten_seconds, tick_times. simpl. repeat constructor; lia.
  - lia.
  - apply Nat2Z.inj_le. etrans; [exact H|]. vm_compute. discriminate.
Defined.

(** The bound is reached: the first and the fourth tick pass the cool-down. *)
Lemma nobody_for_ten_seconds_calls :
  onViolation (run candidate nobody_for_ten_seconds
                   (run candidate [models_loaded] initial)) = [warning; warning].
Proof. vm_compute. reflexivity. Qed.

End ProctorRunExamples.

(* --------------------------------------------------------------------- *)
(** ** The question screen: saving answers and running out of time        *)
(* --------------------------------------------------------------------- *)

Section QuestionScreenRuns.

Import QuestionScreen QuestionScreenSpec.
Local Open Scope Z_scope.

Lemma at_index_answered (qs : list Store.Question) (i j : Z) (a : string) :
  at_index (imap (fun k q => if decide (Z.of_nat k = i)
                             then Store.withUserAnswer a q else q) qs) j
  = (fun q => if decide (j = i) then Store.withUserAnswer a q else q)
      <$> at_index qs j.
Proof.
  unfold at_index. destruct (Z.ltb_spec j 0) as [Hj|Hj]; [reflexivity|].
  rewrite list_lookup_imap.
  destruct (qs !! Z.to_nat j); simpl; [|reflexivity].
  repeat case_decide; try reflexivity; lia.
Qed.

(** A click on Next with an option selected, on a question that is there:
    the selected answer is stored on that question and on no other, the
    update of that question's row is sent, and the screen moves to the next
    question with nothing selected and thirty seconds, or, from the last
    question, to the completion page. *)
Theorem next_saves_the_answer (s : State) (q : Store.Question) :
  navigated s = None -> loading s = false ->
  selectedAnswer s <> "" -> currentQuestion s = Some q ->
  let i := Store.currentQuestionIndex (store s) in
  let s' := step click_next s in
  at_index (Store.questions (store s')) i
    = Some (Store.withUserAnswer (selectedAnswer s) q)
  /\ (forall j, j <> i ->
       at_index (Store.questions (store s')) j = at_index (Store.questions (store s)) j)
  /\ question_updates s' = question_updates s ++ [(Store.id q, selectedAnswer s)]
  /\ (i < Z.of_nat (length (Store.questions (store s))) - 1 ->
       Store.currentQuestionIndex (store s') = i + 1
       /\ selectedAnswer s' = ""
       /\ Store.timeRemaining (store s') = 30
       /\ navigated s' = None)
  /\ (Z.of_nat (length (Store.questions (store s))) - 1 <= i ->
       navigated s' = Some "/assessment-complete"
       /\ Store.currentQuestionIndex (store s') = i).
Proof.
  intros Hnav Hload Hsel Hq i s'. subst s'. unfold step. rewrite Hnav.
  unfold next_enabled. rewrite Hload. simpl.
  rewrite bool_decide_eq_false_2 by exact Hsel. simpl.
  unfold handleNextQuestion. case_decide; [contradiction|]. rewrite Hq.
  unfold advance. simpl.
  rewrite length_imap. fold i.
  destruct (Z.ltb_spec i (Z.of_nat (length (Store.questions (store s))) - 1))
    as [Hlt|Hge]; simpl.
  - split; [|split; [|split; [|split]]].
    + rewrite at_index_answered. unfold currentQuestion in Hq.
      fold i in Hq. rewrite Hq. simpl. now case_decide.
    + intros j Hj. rewrite at_index_answered.
      destruct (at_index _ j); simpl; [|reflexivity]. now case_decide.
    + reflexivity.
    + intros _. now repeat split.
    + intros Habs. lia.
  - split; [|split; [|split; [|split]]].
    + rewrite at_index_answered. unfold currentQuestion in Hq.
      fold i in Hq. rewrite Hq. simpl. now case_decide.
    + intros j Hj. rewrite at_index_answered.
      destruct (at_index _ j); simpl; [|reflexivity]. now case_decide.
    + reflexivity.
    + intros Habs. lia.
    + intros _. now split.
Qed.

Lemma next_saves_the_answer_witness :
  question_updates
    (step click_next (step (click_option "A component") first_question))
  = [("q1", "A component")].
Proof.
  destruct (next_saves_the_answer
              (step (click_option "A component") first_question)
              {| Store.id := "q1"; Store.questionNumber := 1;
                 Store.questionText := "What does App export?";
                 Store.options := ["A component"; "A reducer"; "A hook"; "A store"];
                 Store.correctAnswer := "A component"; Store.userAnswer := None |})
    as (_ & _ & H & _).
  - reflexivity.
  - reflexivity.
  - vm_compute. discriminate.
  - reflexivity.
  - rewrite H. reflexivity.
Defined.

(** One tick of the countdown in front of an idle candidate: the questions
    and the rows stay, and either the candidate is idle with one second less
    to go, or that was the last second and the screen completes. *)
Lemma idle_tick (s : State) :
  idle s ->
  let s' := step timeout_fires s in
  Store.questions (store s') = Store.questions (store s)
  /\ question_updates s' = question_updates s
  /\ ((idle s' /\ seconds_left s' = seconds_left s - 1)
      \/ (seconds_left s = 1 /\ navigated s' = Some "/assessment-complete")).
Proof.
  intros (Hnav & Hsel & Ht & Hi) s'. subst s'. unfold step. rewrite Hnav.
  destruct (Z.gtb_spec (Store.timeRemaining (store s)) 0) as [_|?]; [|lia].
  unfold timeRemaining_effect. simpl.
  destruct (Z.gtb_spec (Store.timeRemaining (store s) - 1) 0) as [Hmore|Hlast].
  - split; [reflexivity|]. split; [reflexivity|]. left.
    unfold idle, seconds_left. simpl. repeat split; try assumption; lia.
  - unfold handleNextQuestion. simpl. rewrite Hsel. simpl. unfold advance. simpl.
    destruct (Z.ltb_spec (Store.currentQuestionIndex (store s))
                (Z.of_nat (length (Store.questions (store s))) - 1)) as [Hlt|Hge];
      simpl.
    + split; [reflexivity|]. split; [reflexivity|]. left.
      unfold idle, seconds_left. simpl. repeat split; try assumption; lia.
    + split; [reflexivity|]. split; [reflexivity|]. right.
      unfold seconds_left. split; [lia|reflexivity].
Qed.

Lemma idle_run (n : nat) (s : State) :
  idle s -> seconds_left s = Z.of_nat (S n) ->
  navigated (run (replicate n timeout_fires) s) = None
  /\ navigated (run (replicate (S n) timeout_fires) s) = Some "/assessment-complete"
  /\ Store.questions (store (run (replicate (S n) timeout_fires) s))
     = Store.questions (store s)
  /\ question_updates (run (replicate (S n) timeout_fires) s) = question_updates s.
Proof.
  revert s; induction n as [|n IH]; intros s Hidle Hleft.
  - destruct (idle_tick s Hidle) as (Hq & Hu & [[Hidle' Hleft']|[_ Hdone]]).
    + destruct Hidle' as (_ & _ & Ht & Hi). unfold seconds_left in *. lia.
    + split; [apply Hidle|]. now repeat split.
  - destruct (idle_tick s Hidle) as (Hq & Hu & [[Hidle' Hleft']|[Hone _]]); [|lia].
    destruct (IH (step timeout_fires s) Hidle') as (Hnot & Hdone & Hq' & Hu');
      [lia|].
    change (run (replicate (S (S n)) timeout_fires) s)
      with (run (replicate (S n) timeout_fires) (step timeout_fires s)).
    change (run (replicate (S n) timeout_fires) s)
      with (run (replicate n timeout_fires) (step timeout_fires s)) at 1.
    rewrite Hq', Hu'. now repeat split.
Qed.

(** A candidate who never touches the screen is taken to the completion page
    by the countdown alone, on the tick that uses up the last second of the
    last question and not before, with no answer stored and no row
    updated. *)
Theorem idle_candidate_times_out (s : State) :
  idle s ->
  let n := Z.to_nat (seconds_left s) in
  navigated (run (replicate n timeout_fires) s) = Some "/assessment-complete"
  /\ navigated (run (replicate (n - 1) timeout_fires) s) = None
  /\ Store.questions (store (run (replicate n timeout_fires) s))
     = Store.questions (store s)
  /\ question_updates (run (replicate n timeout_fires) s) = question_updates s.
Proof.
  intros Hidle n.
  assert (1 <= seconds_left s) as Hpos.
  { destruct Hidle as (_ & _ & Ht & Hi). unfold seconds_left. lia. }
  destruct (idle_run (n - 1) s Hidle) as (Hnot & Hdone & Hq & Hu); [subst n; lia|].
  replace (S (n - 1)) with n in * by (subst n; lia).
  now repeat split.
Qed.

Lemma idle_candidate_times_out_witness :
  navigated (run (replicate 31 timeout_fires) last_second)
  = Some "/assessment-complete".
Proof.
  destruct (idle_candidate_times_out last_second) as [H _].
  - unfold idle. repeat split; vm_compute; congruence.
  - exact H.
Defined.

End QuestionScreenRuns.

(* --------------------------------------------------------------------- *)
(** ** The question generator's rows                                      *)
(* --------------------------------------------------------------------- *)

Section GenerateFacts.

Import Serverless Generate.
Local Open Scope Z_scope.




Section Handler.

Variable JSON_parse : string -> option JSON.
Variable match_fence : string -> option string.
Variable insert : list Row -> Try (list (string * Row)).

(** An answer that parses, but not to an array (an object wrapping the
    questions, say), is answered with status 500 whatever the database would
    have done: nothing reaches the insert. *)
Theorem not_an_array_is_an_error (assessmentId content : string)
    (questionsData : JSON) :
  parse_fenced JSON_parse match_fence content = Some questionsData ->
  (forall items, questionsData <> JArray items) ->
  status (handler JSON_parse match_fence insert assessmentId content) = 500%nat
  /\ exists m, questionsToInsert assessmentId questionsData = thrown m
       /\ body (handler JSON_parse match_fence insert assessmentId content)
          = JObject [("error", JString m)].
Proof.
  intros Hparse Hnot. unfold handler, generate_questions, Serverless.questionsData.
  rewrite Hparse. simpl.
  destruct questionsData as [| | | |items|]; simpl;
    try (split; [reflexivity|eexists; split; reflexivity]).
  now destruct (Hnot items).
Qed.

End Handler.

End GenerateFacts.

Section GenerateExamples.

Import Serverless Generate.


Lemma not_an_array_is_an_error_witness :
  status (handler (fun _ => Some wrapped_questions) (fun _ => None)
                  (fun rows => returned []) "assessment-1" "{ ... }") = 500%nat.
Proof.
  destruct (not_an_array_is_an_error (fun _ => Some wrapped_questions)
              (fun _ => None) (fun rows => returned []) "assessment-1" "{ ... }"
              wrapped_questions) as [H _].
  - reflexivity.
  - intros items. discriminate.
  - exact H.
Defined.

End GenerateExamples.

(* --------------------------------------------------------------------- *)
(** ** The completion trigger                                             *)
(* --------------------------------------------------------------------- *)

Section DatabaseFacts.

Import Database.
Local Open Scope Z_scope.

(** The instant of completion is stamped by the update that completes the
    assessment, whatever that update itself assigned to the column, and no
    later update that leaves the column alone moves it: the completion page's
    own update, sent after the evaluation handler's, keeps the handler's
    instant. *)
Theorem completed_at_is_set_once (row row1 row2 : Assessment) (t1 t2 : Z)
    (a1 a2 : Assignment) :
  status row <> completed ->
  set_status a1 = Some completed ->
  set_completed_at a2 = None ->
  update t1 a1 row = Some row1 ->
  update t2 a2 row1 = Some row2 ->
  completed_at row1 = Some t1 /\ completed_at row2 = Some t1.
Proof.
  unfold update, update_assessment_completed_at, assign.
  intros Hrow Ha1 Ha2 H1 H2. rewrite Ha1 in H1. simpl in H1.
  rewrite (bool_decide_eq_false_2 _ Hrow) in H1. simpl in H1.
  destruct (valid_scores _) in H1; [|discriminate]. injection H1 as <-.
  simpl in H2. rewrite Ha2 in H2. simpl in H2.
  rewrite andb_false_r in H2.
  destruct (valid_scores _) in H2; [|discriminate]. injection H2 as <-.
  now split.
Qed.

Lemma completed_at_is_set_once_witness :
  exists row1 row2,
    update 1000 (evaluation (Some 70) (Some 85) "Assessment completed.") started
      = Some row1
    /\ update 2000 mark_completed row1 = Some row2
    /\ completed_at row2 = Some 1000.
Proof.
  eexists. eexists. split; [reflexivity|]. split; [reflexivity|].
  eapply (completed_at_is_set_once started _ _ 1000 2000
            (evaluation (Some 70) (Some 85) "Assessment completed.") mark_completed);
    try reflexivity.
  discriminate.
Defined.

End DatabaseFacts.

(* --------------------------------------------------------------------- *)
(** ** Numbers that are not numbers                                       *)
(* --------------------------------------------------------------------- *)

Section NaN.

Local Open Scope float_scope.

Lemma is_nan_Prim2SF (x : float) :
  PrimFloat.is_nan x = true <-> Prim2SF x = S754_nan.
Proof.
  split.
  - intros H. unfold Prim2SF. now rewrite H.
  - intros H. unfold PrimFloat.is_nan. now rewrite FloatAxioms.eqb_spec, H.
Qed.

Lemma nan_sub_r (x y : float) :
  PrimFloat.is_nan y = true -> PrimFloat.is_nan (x - y) = true.
Proof.
  rewrite !is_nan_Prim2SF, FloatAxioms.sub_spec. intros ->.
  unfold SF64sub, SFsub. now destruct (Prim2SF x).
Qed.

Lemma nan_mul_l (x y : float) :
  PrimFloat.is_nan x = true -> PrimFloat.is_nan (x * y) = true.
Proof. rewrite !is_nan_Prim2SF, FloatAxioms.mul_spec. now intros ->. Qed.

Lemma nan_add_l (x y : float) :
  PrimFloat.is_nan x = true -> PrimFloat.is_nan (x + y) = true.
Proof. rewrite !is_nan_Prim2SF, FloatAxioms.add_spec. now intros ->. Qed.

Lemma nan_add_r (x y : float) :
  PrimFloat.is_nan y = true -> PrimFloat.is_nan (x + y) = true.
Proof.
  rewrite !is_nan_Prim2SF, FloatAxioms.add_spec. intros ->.
  unfold SF64add, SFadd. now destruct (Prim2SF x).
Qed.

Lemma nan_sqrt (x : float) :
  PrimFloat.is_nan x = true -> PrimFloat.is_nan (PrimFloat.sqrt x) = true.
Proof. rewrite !is_nan_Prim2SF, FloatAxioms.sqrt_spec. now intros ->. Qed.

Lemma nan_ltb_r (x y : float) :
  PrimFloat.is_nan y = true -> (x <? y) = false.
Proof.
  rewrite is_nan_Prim2SF, FloatAxioms.ltb_spec. intros ->.
  unfold SFltb, SFcompare. now destruct (Prim2SF x).
Qed.

End NaN.

(* --------------------------------------------------------------------- *)
(** ** The permissions page                                               *)
(* --------------------------------------------------------------------- *)

Section PermissionsFacts.

Import PermissionsPage.
Local Open Scope float_scope.

Lemma sum_squares_foldl (e1 e2 : list float) (sum : float) :
  length e1 = length e2 ->
  sum_squares e1 e2 sum
  = foldl (fun res diff => res + diff * diff) sum (zip_with PrimFloat.sub e1 e2).
Proof.
  revert e2 sum; induction e1 as [|x e1 IH]; intros [|y e2] sum Hlen;
    simpl in *; try discriminate; [reflexivity|].
  apply IH. lia.
Qed.

(** On embeddings of the same length, the distance the permissions page
    computes when a face is registered is the distance the proctoring loop
    computes on every tick. *)
Theorem calculateDistance_is_euclideanDistance (e1 e2 : list float) :
  length e1 = length e2 ->
  Proctor.euclideanDistance e1 e2 = Some (calculateDistance e1 e2).
Proof.
  intros Hlen. unfold Proctor.euclideanDistance, calculateDistance.
  case_decide; [|contradiction]. now rewrite sum_squares_foldl.
Qed.

Lemma calculateDistance_is_euclideanDistance_witness :
  Proctor.euclideanDistance [0.5; 0.25] [0.5; 1.25] = Some 1.
Proof.
  rewrite (calculateDistance_is_euclideanDistance [0.5; 0.25] [0.5; 1.25]).
  - vm_compute. reflexivity.
  - reflexivity.
Defined.

Lemma sum_squares_nan (e1 e2 : list float) (sum : float) :
  PrimFloat.is_nan sum = true -> PrimFloat.is_nan (sum_squares e1 e2 sum) = true.
Proof.
  revert e2 sum; induction e1 as [|x e1 IH]; intros e2 sum Hsum; simpl;
    [exact Hsum|].
  apply IH. now apply nan_add_l.
Qed.

Lemma sum_squares_short (e1 e2 : list float) (sum : float) :
  (length e2 < length e1)%nat -> PrimFloat.is_nan (sum_squares e1 e2 sum) = true.
Proof.
  revert e2 sum; induction e1 as [|x e1 IH]; intros e2 sum Hlen; simpl in *;
    [lia|].
  destruct e2 as [|y e2]; simpl in *.
  - apply sum_squares_nan, nan_add_r, nan_mul_l, nan_sub_r. reflexivity.
  - apply IH. lia.
Qed.

(** A captured descriptor shorter than the embedding stored in the profile is
    accepted without having been compared: the distance is NaN, which is not
    above the threshold, and the captured descriptor becomes the store's face
    embedding. *)
Theorem short_descriptor_is_accepted (stored embeddings : list float) (s : State) :
  (length embeddings < length stored)%nat ->
  PrimFloat.is_nan (calculateDistance stored embeddings) = true
  /\ Store.faceEmbedding
       (store (handleFaceRegistrationComplete (profile (Some stored)) embeddings s))
     = Some embeddings
  /\ last (toasts (handleFaceRegistrationComplete (profile (Some stored)) embeddings s))
     = Some (toast_success
               "Identity verified! You can now continue to the assessment.").
Proof.
  intros Hlen.
  assert (PrimFloat.is_nan (calculateDistance stored embeddings) = true) as Hnan
    by (apply nan_sqrt, sum_squares_short, Hlen).
  split; [exact Hnan|]. unfold handleFaceRegistrationComplete.
  rewrite (nan_ltb_r _ _ Hnan). simpl. split; [reflexivity|apply last_snoc].
Qed.

Lemma short_descriptor_is_accepted_witness :
  Store.faceEmbedding
    (store (handleFaceRegistrationComplete (profile (Some [0.5; 0.25; 0.125])) []
              (mount Store.camera_granted)))
  = Some [].
Proof.
  apply (short_descriptor_is_accepted [0.5; 0.25; 0.125] []
           (mount Store.camera_granted)).
  simpl. lia.
Defined.

(** Continue leads to the questions exactly when the camera is granted and a
    face embedding is in the store.  After the store was reset it is refused,
    whatever the store held before: the camera permission may have survived
    the reset, the face embedding has not. *)
Theorem continue_needs_camera_and_face (s : State) (st : Store.AssessmentState) :
  (navigated s = None ->
     (navigated (handleContinue s) = Some "/questions"
      <-> Store.camera (Store.permissions (store s)) = true
          /\ is_Some (Store.faceEmbedding (store s))))
  /\ store (handleContinue s) = store s
  /\ navigated (handleContinue (mount (start_over st))) = None.
Proof.
  unfold handleContinue. split; [|split].
  - intros Hnav.
    destruct (Store.camera (Store.permissions (store s))); simpl.
    + destruct (Store.faceEmbedding (store s)) as [e|]; simpl.
      * split; [intros _; split; [reflexivity|now exists e]|reflexivity].
      * rewrite Hnav. split; [discriminate|]. intros [_ [e He]]. discriminate.
    + rewrite Hnav. split; [discriminate|]. intros [? _]. discriminate.
  - destruct (Store.camera _); simpl; [|reflexivity].
    now destruct (Store.faceEmbedding _).
  - unfold start_over. rewrite resetAssessment_spec. simpl.
    now destruct (Store.camera (Store.permissions st)).
Qed.

End PermissionsFacts.

(* --------------------------------------------------------------------- *)
(** ** The registered face in front of the camera                         *)
(* --------------------------------------------------------------------- *)

Section RegisteredFace.

Import Proctor.
Local Open Scope float_scope.

Lemma sub_diag (x : float) : PrimFloat.is_finite x = true -> x - x = 0.
Proof.
  intros Hfin. apply FloatAxioms.Prim2SF_inj.
  rewrite FloatAxioms.sub_spec.
  change (Prim2SF 0) with (S754_zero false).
  unfold PrimFloat.is_finite in Hfin.
  apply negb_true_iff, orb_false_iff in Hfin as [Hnan Hinf].
  unfold Prim2SF at 1 2. rewrite Hnan.
  destruct (PrimFloat.is_zero x).
  - unfold SF64sub, SFsub. now destruct (PrimFloat.get_sign x).
  - rewrite Hinf.
    destruct (FloatOps.Z.frexp x) as [r e].
    destruct (shr_fexp _ _ _ _ _) as [shr e'].
    destruct (shr_m shr) as [|p|p]; [reflexivity| |reflexivity].
    unfold SF64sub, SFsub. now rewrite Z.sub_diag.
Qed.

Lemma euclideanDistance_diag (e : list float) :
  Forall (fun x => PrimFloat.is_finite x = true) e ->
  euclideanDistance e e = Some 0.
Proof.
  intros Hfin. unfold euclideanDistance. case_decide as Hlen; [|contradiction].
  clear Hlen. f_equal.
  enough (foldl (fun res diff => res + diff * diff) 0 (zip_with PrimFloat.sub e e) = 0)
    as -> by reflexivity.
  induction Hfin as [|x e Hx Hfin IH]; [reflexivity|]. simpl.
  rewrite (sub_diag x Hx). change (0 + 0 * 0) with 0. exact IH.
Qed.

Variable env : Env.

(** While the loop runs, a frame showing one face whose descriptor is the
    registered embedding itself (of finite numbers) is verified, at any clock
    and whatever the status was: no violation is raised and nothing but the
    status changes. *)
Theorem registered_face_is_verified (es : list Event) (now : Z) :
  Forall (fun x => PrimFloat.is_finite x = true) (registeredEmbedding env) ->
  is_Some (detectionIntervalRef (run env es initial)) ->
  step env (interval_fires now (detections [registeredEmbedding env]))
       (run env es initial)
  = setVerificationStatus verified (run env es initial).
Proof.
  intros Hfin Hrun.
  rewrite (single_face_tick env es now (registeredEmbedding env) 0 Hrun
             (euclideanDistance_diag _ Hfin)).
  reflexivity.
Qed.

End RegisteredFace.

Section RegisteredFaceExample.

Import Proctor.

Lemma registered_face_is_verified_witness :
  verificationStatus
    (step candidate
       (interval_fires 1700000002000 (detections [registeredEmbedding candidate]))
       (run candidate [models_loaded; interval_fires 1700000000000 (detections [])]
            initial)) = verified.
Proof.
  rewrite (registered_face_is_verified candidate
             [models_loaded; interval_fires 1700000000000 (detections [])]
             1700000002000).
  - reflexivity.
  - repeat constructor.
  - eexists. reflexivity.
Defined.

End RegisteredFaceExample.

(* --------------------------------------------------------------------- *)
(** ** The pause and the face monitor                                     *)
(* --------------------------------------------------------------------- *)

Section PauseAndMonitor.

Import QuestionScreen.

(** A critical violation disables the option buttons and pauses the
    assessment; the next frame in which the face monitor finds exactly one
    face enables them again, and an option of the current question is then
    taken as the selection while the pause is still on. *)
Theorem one_face_lifts_the_selection_guard (s : State) (q : Store.Question)
    (o : string) (seen seen' : list string) (monitor : FaceDetection.State) :
  navigated s = None -> loading s = false ->
  currentQuestion s = Some q -> o ∈ Store.options q ->
  let s1 := step (proctor_violation seen Proctor.critical) s in
  let s2 := run (FaceDetection.tick seen' (FaceDetection.faces 1) monitor).2 s1 in
  let s3 := step (click_option o) s2 in
  isMonitoringValid s1 = false
  /\ option_enabled o s1 = false
  /\ isMonitoringValid s2 = true
  /\ assessmentPaused s3 = true
  /\ selectedAnswer s3 = o.
Proof.
  intros Hnav Hload Hq Ho s1 s2 s3.
  assert (s1 = toast (toast_error
            "Assessment paused due to proctoring violation. Please resolve the issue.")
            (setIsMonitoringValid false (setAssessmentPaused true s))) as Hs1.
  { subst s1. unfold step. now rewrite Hnav. }
  assert (s2 = setIsMonitoringValid true s1) as Hs2.
  { subst s2. simpl. unfold step. rewrite Hs1. simpl. now rewrite Hnav. }
  assert (option_enabled o s2 = true) as Hen.
  { rewrite Hs2, Hs1. unfold option_enabled, currentQuestion in *. simpl.
    rewrite Hload, Hq. simpl. now rewrite bool_decide_eq_true_2 by exact Ho. }
  assert (s3 = setSelectedAnswer o s2) as Hs3.
  { subst s3. unfold step. rewrite Hen.
    replace (navigated s2) with (@None string) by (now rewrite Hs2, Hs1).
    unfold handleAnswerSelect.
    replace (isMonitoringValid s2) with true by (now rewrite Hs2).
    reflexivity. }
  rewrite Hs3, Hs2, Hs1. unfold option_enabled. simpl.
  rewrite andb_false_r. now repeat split.
Qed.

Lemma one_face_lifts_the_selection_guard_witness :
  selectedAnswer
    (step (click_option "A reducer")
       (run (FaceDetection.tick [] (FaceDetection.faces 1) FaceDetection.initial).2
          (step (proctor_violation [] Proctor.critical)
                QuestionScreenSpec.first_question))) = "A reducer".
Proof.
  apply (one_face_lifts_the_selection_guard QuestionScreenSpec.first_question
           {| Store.id := "q1"; Store.questionNumber := 1;
              Store.questionText := "What does App export?";
              Store.options := ["A component"; "A reducer"; "A hook"; "A store"];
              Store.correctAnswer := "A component"; Store.userAnswer := None |}
           "A reducer" [] [] FaceDetection.initial).
  - reflexivity.
  - reflexivity.
  - reflexivity.
  - vm_compute. right. left.
Defined.

End PauseAndMonitor.

(* --------------------------------------------------------------------- *)
(** ** From the screen to the score                                       *)
(* --------------------------------------------------------------------- *)

Section PerfectCandidate.

Import QuestionScreen Completion.
Local Open Scope Z_scope.

Lemma answer_effect (s : State) (i : nat) (q : Store.Question) :
  navigated s = None -> loading s = false -> isMonitoringValid s = true ->
  Store.currentQuestionIndex (store s) = Z.of_nat i ->
  Store.questions (store s) !! i = Some q -> answerable q ->
  run (answer_with Store.correctAnswer q) s
  = advance (updateQuestion (Store.id q) (Store.correctAnswer q)
               (withStore (Store.setUserAnswer (Z.of_nat i) (Store.correctAnswer q))
                          (setSelectedAnswer (Store.correctAnswer q) s))).
Proof.
  intros Hnav Hload Hvalid Hidx Hq [Hopt Hne].
  assert (currentQuestion s = Some q) as Hcur.
  { unfold currentQuestion, at_index. rewrite Hidx.
    destruct (Z.ltb_spec (Z.of_nat i) 0); [lia|]. now rewrite Nat2Z.id. }
  unfold run, answer_with. simpl.
  assert (step (click_option (Store.correctAnswer q)) s
          = setSelectedAnswer (Store.correctAnswer q) s) as ->.
  { unfold step. rewrite Hnav. unfold option_enabled. rewrite Hload, Hcur, Hvalid.
    simpl. rewrite bool_decide_eq_true_2 by exact Hopt. simpl.
    unfold handleAnswerSelect. now rewrite Hvalid. }
  unfold step. simpl. rewrite Hnav. unfold next_enabled. simpl. rewrite Hload.
  rewrite bool_decide_eq_false_2 by exact Hne. simpl.
  unfold handleNextQuestion. simpl. case_decide; [contradiction|].
  unfold currentQuestion in *. simpl. rewrite Hcur, Hidx. reflexivity.
Qed.

Lemma screen_run_app (es es' : list Event) (s : State) :
  run (es ++ es') s = run es' (run es s).
Proof. unfold run. apply foldl_app. Qed.

Lemma answer_step (qs0 : list Store.Question) (s : State) (i : nat)
    (q : Store.Question) :
  standing i s -> progress qs0 i (Store.questions (store s)) ->
  qs0 !! i = Some q -> answerable q ->
  let s' := run (answer_with Store.correctAnswer q) s in
  progress qs0 (S i) (Store.questions (store s'))
  /\ ((S i < length qs0)%nat -> standing (S i) s')
  /\ ((length qs0 <= S i)%nat -> navigated s' = Some "/assessment-complete").
Proof.
  intros (Hnav & Hload & Hvalid & Hidx) (Hlen & Hdone & Hrest) Hq Hans s'.
  assert (Store.questions (store s) !! i = Some q) as Hqi
    by (now rewrite Hrest by lia).
  subst s'. rewrite (answer_effect s i q) by assumption.
  unfold advance. simpl. rewrite length_imap, Hidx, Hlen.
  assert (progress qs0 (S i)
            (imap (fun k q0 => if decide (Z.of_nat k = Z.of_nat i)
                               then Store.withUserAnswer (Store.correctAnswer q) q0
                               else q0)
                  (Store.questions (store s)))) as Hprog.
  { split; [now rewrite length_imap|]. split.
    - intros j q' Hj. rewrite list_lookup_imap.
      destruct (Store.questions (store s) !! j) as [qj|] eqn:Hqj; [|discriminate].
      simpl. case_decide as Hji; intros H; injection H as <-.
      + assert (j = i) as -> by lia. rewrite Hqi in Hqj. injection Hqj as <-.
        reflexivity.
      + apply (Hdone j); [lia|exact Hqj].
    - intros j Hj. rewrite list_lookup_imap, Hrest by lia.
      destruct (qs0 !! j); simpl; [|reflexivity]. case_decide; [lia|reflexivity]. }
  destruct (Z.ltb_spec (Z.of_nat i) (Z.of_nat (length qs0) - 1)) as [Hlt|Hge]; simpl.
  - split; [exact Hprog|]. split; [|lia]. intros _.
    unfold standing. simpl. repeat split; try assumption. lia.
  - split; [exact Hprog|]. split; [lia|]. reflexivity.
Qed.

Lemma perfect_from (qs0 : list Store.Question) (n i : nat) (s : State) :
  length qs0 = (i + S n)%nat ->
  Forall answerable qs0 ->
  standing i s -> progress qs0 i (Store.questions (store s)) ->
  let s' := run (flat_map (answer_with Store.correctAnswer) (drop i qs0)) s in
  navigated s' = Some "/assessment-complete"
  /\ progress qs0 (length qs0) (Store.questions (store s')).
Proof.
  revert i s; induction n as [|n IH]; intros i s Hlen Hall Hstand Hprog.
  - destruct (lookup_lt_is_Some_2 qs0 i) as [q Hq]; [lia|].
    rewrite (drop_S _ _ _ Hq), drop_ge by lia.
    change (flat_map (answer_with Store.correctAnswer) [q])
      with (answer_with Store.correctAnswer q).
    destruct (answer_step qs0 s i q Hstand Hprog Hq) as (Hp & _ & Hdone).
    { rewrite Forall_lookup in Hall. exact (Hall i q Hq). }
    split; [apply Hdone; lia|]. now replace (length qs0) with (S i) by lia.
  - destruct (lookup_lt_is_Some_2 qs0 i) as [q Hq]; [lia|].
    rewrite (drop_S _ _ _ Hq).
    change (flat_map (answer_with Store.correctAnswer) (q :: drop (S i) qs0))
      with (answer_with Store.correctAnswer q
            ++ flat_map (answer_with Store.correctAnswer) (drop (S i) qs0)).
    rewrite screen_run_app.
    destruct (answer_step qs0 s i q Hstand Hprog Hq) as (Hp & Hnext & _).
    { rewrite Forall_lookup in Hall. exact (Hall i q Hq). }
    apply (IH (S i)); [lia|exact Hall|apply Hnext; lia|exact Hp].
Qed.

Lemma all_correct_count (qs : list Store.Question) :
  Forall answered_correctly qs ->
  Scoring.correctCount (answers qs) = length (answers qs).
Proof.
  intros Hall. unfold Scoring.correctCount.
  induction Hall as [|q qs Hq Hall IH]; [reflexivity|].
  unfold answers in *. rewrite fmap_cons, filter_cons. simpl.
  case_decide as Hc; [simpl; now rewrite IH|]. now destruct Hc.
Qed.

(** A candidate who, on each of one to ten questions, selects the correct
    option and clicks Next, with monitoring valid throughout, ends on the
    completion page with every question answered correctly, and the answers
    the completion page then sends are scored 100 by the handler that reads
    them, the one that stores the evaluation. *)
Theorem perfect_candidate_scores_100 (s : State) :
  navigated s = None -> loading s = false -> isMonitoringValid s = true ->
  Store.currentQuestionIndex (store s) = 0 ->
  (1 <= length (Store.questions (store s)) <= 10)%nat ->
  Forall answerable (Store.questions (store s)) ->
  let s' := run (flat_map (answer_with Store.correctAnswer)
                          (Store.questions (store s))) s in
  navigated s' = Some "/assessment-complete"
  /\ Forall answered_correctly (Store.questions (store s'))
  /\ Scoring.totalScore (answers (Store.questions (store s'))) = 100%float.
Proof.
  intros Hnav Hload Hvalid Hidx Hlen Hall s'.
  destruct (perfect_from (Store.questions (store s))
              (length (Store.questions (store s)) - 1) 0 s)
    as (Hdone & Hl & Hans & _).
  - lia.
  - exact Hall.
  - now repeat split.
  - split; [reflexivity|]. split; [lia|reflexivity].
  - rewrite drop_0 in Hdone, Hl, Hans. fold s' in Hdone, Hl, Hans.
    assert (Forall answered_correctly (Store.questions (store s'))) as Hcorrect.
    { apply Forall_lookup. intros j q Hj. apply (Hans j); [|exact Hj].
      apply lookup_lt_Some in Hj. lia. }
    split; [exact Hdone|]. split; [exact Hcorrect|].
    assert (Scoring.score (answers (Store.questions (store s'))) = 100%float) as Hs.
    { unfold Scoring.score. rewrite all_correct_count by exact Hcorrect.
      assert (length (answers (Store.questions (store s')))
              = length (Store.questions (store s))) as Hn
        by (unfold answers; now rewrite length_fmap).
      destruct (percentage_extremes (length (answers (Store.questions (store s'))))
                  (length (answers (Store.questions (store s')))))
        as [[_ H100] _]; [lia|lia|]. now apply H100. }
    now rewrite totalScore_score.
Qed.

Lemma perfect_candidate_scores_100_witness :
  Scoring.totalScore
    (answers (Store.questions
       (store (run (flat_map (answer_with Store.correctAnswer) two_questions)
                   QuestionScreenSpec.first_question)))) = 100%float.
Proof.
  apply (perfect_candidate_scores_100 QuestionScreenSpec.first_question);
    try reflexivity.
  - vm_compute. lia.
  - repeat constructor; discriminate.
Defined.

End PerfectCandidate.

(* --------------------------------------------------------------------- *)
(** ** The evaluation handlers on the same answers                        *)
(* --------------------------------------------------------------------- *)

Section HandlersAgree.

Import Scoring.

(** The counter of the storing handler and the filter of the reporting
    handler count the same answers, so the two handlers give every list of
    answers the same score, the empty list included. *)
Theorem handlers_agree_on_the_score (answers : list Answer) :
  correctAnswers answers = correctCount answers
  /\ (correctCount answers <= length answers)%nat
  /\ totalScore answers = score answers.
Proof.
  pose proof (correctAnswers_correctCount answers) as Hc.
  split; [exact Hc|]. split; [apply correctCount_le_length|].
  unfold totalScore, score. now rewrite Hc.
Qed.

End HandlersAgree.

(* --------------------------------------------------------------------- *)
(** ** An answer that parses to null                                      *)
(* --------------------------------------------------------------------- *)

Section NullAnswer.

Import Serverless.

Variable JSON_parse : string -> option JSON.
Variable match_fence : string -> option string.

(** A model answer that parses to [null] is not replaced by the default
    payload: the storing evaluation handler reads a property of it, throws,
    and answers status 500, whether or not the update would have worked. *)
Theorem null_answer_is_an_error (totalScore : float) (content : string)
    (updateError : option string) :
  parse_fenced JSON_parse match_fence content = Some JNull ->
  plagiarismData JSON_parse match_fence content = JNull
  /\ evaluate_and_store JSON_parse match_fence totalScore content updateError
     = {| status := 500;
          body := JObject [("error",
                   JString "Cannot read properties of null (reading 'plagiarismScore')")] |}.
Proof.
  intros Hparse. unfold evaluate_and_store, plagiarismData. rewrite Hparse.
  split; reflexivity.
Qed.

End NullAnswer.

Section NullAnswerExample.

Import Serverless.

Lemma null_answer_is_an_error_witness :
  status (evaluate_and_store (fun _ => Some JNull) (fun _ => None)
                             70%float "null" None) = 500%nat.
Proof.
  destruct (null_answer_is_an_error (fun _ => Some JNull) (fun _ => None)
              70%float "null" None) as [_ H].
  - reflexivity.
  - now rewrite H.
Defined.

End NullAnswerExample.

(* --------------------------------------------------------------------- *)
(** ** Candidates who answer nothing                                      *)
(* --------------------------------------------------------------------- *)

Section SilentCandidates.

Import QuestionScreen QuestionScreenSpec Completion Examples.
Local Open Scope Z_scope.

Lemma none_correct_count (qs : list Store.Question) :
  Forall unanswered qs -> Scoring.correctCount (answers qs) = 0%nat.
Proof.
  intros Hall. unfold Scoring.correctCount.
  induction Hall as [|q qs Hq Hall IH]; [reflexivity|].
  unfold answers in *. rewrite fmap_cons, filter_cons. simpl.
  case_decide as Hc; [|exact IH]. unfold unanswered in Hq. simpl in Hc. congruence.
Qed.

(** A candidate who lets every countdown run out on one to ten unanswered
    questions ends on the completion page, and the answers sent from there
    are scored 0 by the handler that reads them, the one that stores the
    evaluation. *)
Theorem idle_candidate_scores_0 (s : State) :
  idle s ->
  (1 <= length (Store.questions (store s)) <= 10)%nat ->
  Forall unanswered (Store.questions (store s)) ->
  let s' := run (replicate (Z.to_nat (seconds_left s)) timeout_fires) s in
  navigated s' = Some "/assessment-complete"
  /\ Scoring.totalScore (answers (Store.questions (store s'))) = 0%float.
Proof.
  intros Hidle Hlen Hall s'.
  assert (1 <= seconds_left s) as Hpos.
  { destruct Hidle as (_ & _ & Ht & Hi). unfold seconds_left. lia. }
  destruct (idle_run (Z.to_nat (seconds_left s) - 1) s Hidle)
    as (_ & Hdone & Hq & _); [lia|].
  replace (S (Z.to_nat (seconds_left s) - 1)) with (Z.to_nat (seconds_left s))
    in * by lia.
  fold s' in Hdone, Hq. split; [exact Hdone|]. rewrite Hq.
  assert (Scoring.score (answers (Store.questions (store s))) = 0%float) as Hs.
  { unfold Scoring.score. rewrite none_correct_count by exact Hall.
    destruct (percentage_extremes 0 (length (answers (Store.questions (store s)))))
      as [_ [_ H0]]; [unfold answers; rewrite length_fmap; lia|lia|].
    now apply H0. }
  now rewrite totalScore_score.
Qed.

Lemma idle_candidate_scores_0_witness :
  Scoring.totalScore
    (answers (Store.questions (store (run (replicate 31 timeout_fires) last_second))))
  = 0%float.
Proof.
  assert (Z.to_nat (seconds_left last_second) = 31%nat) as Hn
    by (vm_compute; reflexivity).
  destruct (idle_candidate_scores_0 last_second) as (_ & H).
  - unfold idle. repeat split; vm_compute; congruence.
  - vm_compute. lia.
  - vm_compute. repeat constructor.
  - rewrite Hn in H. exact H.
Defined.

Lemma countdown_without_questions (n : nat) (s : State) :
  navigated s = None -> selectedAnswer s = "" ->
  Store.questions (store s) = [] ->
  0 <= Store.currentQuestionIndex (store s) ->
  Store.timeRemaining (store s) = Z.of_nat (S n) ->
  navigated (run (replicate (S n) timeout_fires) s) = Some "/assessment-complete"
  /\ Store.questions (store (run (replicate (S n) timeout_fires) s)) = [].
Proof.
  revert s; induction n as [|n IH]; intros s Hnav Hsel Hq Hidx Htime.
  - change (run (replicate 1 timeout_fires) s) with (step timeout_fires s).
    unfold step. rewrite Hnav, Htime. simpl.
    unfold timeRemaining_effect. simpl. unfold handleNextQuestion. simpl.
    rewrite Hsel. simpl. unfold advance. simpl. rewrite Hq. simpl.
    destruct (Z.ltb_spec (Store.currentQuestionIndex (store s)) (Z.of_nat 0 - 1));
      [lia|].
    now split.
  - change (run (replicate (S (S n)) timeout_fires) s)
      with (run (replicate (S n) timeout_fires) (step timeout_fires s)).
    assert (step timeout_fires s
            = withStore (Store.setTimeRemaining (Store.timeRemaining (store s) - 1)) s)
      as ->.
    { unfold step. rewrite Hnav.
      destruct (Z.gtb_spec (Store.timeRemaining (store s)) 0); [|lia].
      unfold timeRemaining_effect.
      change (Store.timeRemaining
                (store (withStore (Store.setTimeRemaining
                                     (Store.timeRemaining (store s) - 1)) s)))
        with (Store.timeRemaining (store s) - 1).
      destruct (Z.gtb_spec (Store.timeRemaining (store s) - 1) 0);
        [reflexivity|lia]. }
    apply IH; try assumption.
    change (Store.timeRemaining (store s) - 1 = Z.of_nat (S n)). lia.
Qed.

(** When the questions have not arrived by the time the countdown runs out
    (the store holds none), the screen completes the assessment all the same,
    and the empty list of answers sent from the completion page has the score
    NaN. *)
Theorem no_questions_score_NaN (st : Store.AssessmentState) :
  Store.questions st = [] ->
  Store.uploadedFiles st <> [] ->
  0 <= Store.currentQuestionIndex st ->
  1 <= Store.timeRemaining st ->
  let s' := run (replicate (Z.to_nat (Store.timeRemaining st)) timeout_fires)
                (mount true st) in
  navigated s' = Some "/assessment-complete"
  /\ answers (Store.questions (store s')) = []
  /\ PrimFloat.is_nan (Scoring.totalScore (answers (Store.questions (store s'))))
     = true.
Proof.
  intros Hqs Hup Hidx Ht s'.
  assert (mount true st
          = {| store := st; loading := true; selectedAnswer := "";
               violations := []; isMonitoringValid := false;
               bluetoothWarning := false; assessmentPaused := false;
               navigated := None; question_updates := []; toasts := [] |}) as Hmount.
  { unfold mount. simpl. case_decide as Hlen.
    - destruct (Store.uploadedFiles st); [contradiction|discriminate].
    - unfold timeRemaining_effect. simpl.
      destruct (Z.gtb_spec (Store.timeRemaining st) 0); [reflexivity|lia]. }
  destruct (countdown_without_questions (Z.to_nat (Store.timeRemaining st) - 1)
              (mount true st)) as [Hdone Hnone];
    try (rewrite Hmount; simpl; first [reflexivity|assumption|lia]).
  replace (S (Z.to_nat (Store.timeRemaining st) - 1))
    with (Z.to_nat (Store.timeRemaining st)) in * by lia.
  fold s' in Hdone, Hnone. rewrite Hnone. now repeat split.
Qed.

Lemma no_questions_score_NaN_witness :
  navigated (run (replicate 30 timeout_fires) (mount true uploaded))
  = Some "/assessment-complete".
Proof.
  destruct (no_questions_score_NaN uploaded) as [H _].
  - reflexivity.
  - discriminate.
  - vm_compute. discriminate.
  - vm_compute. discriminate.
  - exact H.
Defined.

End SilentCandidates.

(* --------------------------------------------------------------------- *)
(** ** An archive without sources                                         *)
(* --------------------------------------------------------------------- *)

Section ArchiveWithoutSources.

Import Js Upload UploadSpec Examples.
Local Open Scope Z_scope.

Lemma extract_nothing (entries : list (string * ZipEntry))
    (acc : list Store.UploadedFile) :
  Forall (fun entry => kept entry.1 entry.2 = false) entries ->
  extract entries acc = ([], Some acc).
Proof.
  revert acc; induction entries as [|[path e] rest IH]; intros acc Hall; simpl;
    [reflexivity|].
  apply Forall_cons in Hall as [He Hrest]. simpl in He. rewrite He. now apply IH.
Qed.

(** An archive in which the loop keeps nothing (directories, dependencies
    and repository data only) is reported as a success with 0 files; it
    empties the uploaded files, and the question screen mounted over that
    store sends the signed-in user back to the upload page. *)
Theorem archive_without_sources (file : File) (s : Store.AssessmentState)
    (contents : list (string * ZipEntry)) :
  endsWith (file_name file) ".zip" = true ->
  loadAsync file = Some contents ->
  Forall (fun entry => kept entry.1 entry.2 = false) contents ->
  1 <= Store.timeRemaining s ->
  handleFileUpload file s
  = ([zip_loadAsync (file_name file); toast_success "Extracted 0 files"],
     Store.setUploadedFiles [] s)
  /\ QuestionScreen.navigated (QuestionScreen.mount true (handleFileUpload file s).2)
     = Some "/upload".
Proof.
  intros Hname Hload Hall Ht. unfold handleFileUpload.
  rewrite Hname, Hload, (extract_nothing contents [] Hall). simpl.
  split; [reflexivity|].
  unfold QuestionScreen.mount, QuestionScreen.timeRemaining_effect. simpl.
  destruct (Z.gtb_spec (Store.timeRemaining s) 0); [reflexivity|lia].
Qed.

Lemma archive_without_sources_witness :
  QuestionScreen.navigated
    (QuestionScreen.mount true
       (handleFileUpload dependencies_zip QuestionScreen.uploaded).2)
  = Some "/upload".
Proof.
  destruct (archive_without_sources dependencies_zip QuestionScreen.uploaded
              [("node_modules/", mkEntry true (Some ""));
               ("node_modules/react/index.js", mkEntry false (Some "module.exports = {};"));
               (".git/HEAD", mkEntry false (Some "ref: refs/heads/main"))])
    as [_ H].
  - vm_compute. reflexivity.
  - reflexivity.
  - repeat constructor.
  - vm_compute. discriminate.
  - exact H.
Defined.

End ArchiveWithoutSources.
